(** * Exploring UV extinction curves (IUE notebook): alignment, edge excision
      and the extinction curve

    Shallow embedding of the data-handling cells of
    [notebooks/IUE/exploring_UV_extinction_curves]:

    - the cell that shortens the [lw_nodust] arrays to the length of the
      dusty ones ([align]);
    - the edge-excision cell, which slices with [s_crop] and [l_crop]
      ([crop]);
    - the helper [Extinction(wav, flux1, flux2)] ([deriveCurve] in the
      specification).

    One-dimensional NumPy arrays are lists; Python integers are [Z]; slicing
    follows CPython's index adjustment; NumPy's element-wise operators follow
    its broadcasting rule and raise [ValueError] on incompatible shapes. *)

From Stdlib Require Import ZArith Reals Lra SpecFloat.
From stdpp Require Import base tactics option list.

Set Default Proof Using "Type".

(** ** Outcomes of Python expressions

    [ValueError] is what NumPy and Matplotlib raise on arrays whose shapes do
    not fit.  [RangeError] is the error kind the specification names for
    [crop]; no expression of the notebook raises it. *)

Inductive exception : Type :=
  | ValueError
  | RangeError.

Inductive result (A : Type) : Type :=
  | Ok (a : A)
  | Raise (e : exception).
Arguments Ok {A} a.
Arguments Raise {A} e.

(** Sequencing: an exception raised by the first computation propagates. *)
#[global] Instance result_ret : MRet result := λ A a, Ok a.
#[global] Instance result_bind : MBind result := λ A B f r,
  match r with
  | Ok a => f a
  | Raise e => Raise e
  end.

Definition raises {A : Type} (r : result A) : Prop :=
  match r with
  | Ok _ => False
  | Raise _ => True
  end.

(** ** Slicing: [a[start:stop]]

    An index that is present is adjusted as CPython does for a step of one:
    a negative index counts from the end, and the outcome is clamped to
    [0 .. len]. *)

Definition adjust_index (len i : Z) : Z :=
  if (i <? 0)%Z then Z.max 0 (i + len) else Z.min i len.

Definition py_slice {A : Type} (start stop : option Z) (a : list A) : list A :=
  let len := Z.of_nat (length a) in
  let lo := from_option (adjust_index len) 0%Z start in
  let hi := from_option (adjust_index len) len stop in
  take (Z.to_nat (hi - lo)) (drop (Z.to_nat lo) a).

(** [a[i:]] and [a[:j]], the two forms the notebook uses. *)
Definition slice_from {A : Type} (i : Z) (a : list A) : list A :=
  py_slice (Some i) None a.

Definition slice_to {A : Type} (j : Z) (a : list A) : list A :=
  py_slice None (Some j) a.

(** ** Spectra and the notebook's array cells *)

Section Cells.
Context {T : Type}.

(** What [extractData] returns for one file: the wavelength column and the
    flux column of the first table row. *)
Record spectrum : Type := Spectrum {
  wav : list T;
  flux : list T;
}.

(** The cell that makes the long-wavelength data consistent:
<<
    wav_lw_nodust = wav_lw_nodust[:len(wav_lw_dusty)]
    flux_lw_nodust = flux_lw_nodust[:len(flux_lw_dusty)]
>>
    The first component of the outcome is the dusty (target) spectrum, which
    the cell does not assign to; the second is the rebound nodust
    (reference) spectrum. *)
Definition align (dusty nodust : spectrum) : spectrum * spectrum :=
  (dusty,
   {| wav := slice_to (Z.of_nat (length (wav dusty))) (wav nodust);
      flux := slice_to (Z.of_nat (length (flux dusty))) (flux nodust) |}).

(** The edge-excision cell sets [s_crop = 50] and [l_crop = -50], takes
    [a[s_crop:]] of the short-wavelength arrays and [a[:l_crop]] of the
    long-wavelength ones.  [crop a s e] is these two slices one after the
    other, [a[s_crop:][:l_crop]] with [s_crop = s] and [l_crop = -e]: the
    notebook has no other way of removing samples from the end, and it
    compares no offset with zero, so that [e = 0] gives [a[s:][:0]]. *)
Definition crop {A : Type} (a : list A) (s e : Z) : result (list A) :=
  let front := slice_from s a in
  Ok (slice_to (- e) front).

(** The cell applies one and the same slice to the wavelength array and
    to the flux arrays. *)
Definition crop_spectrum (sp : spectrum) (s e : Z) : result spectrum :=
  w ← crop (wav sp) s e;
  f ← crop (flux sp) s e;
  mret {| wav := w; flux := f |}.
End Cells.
Arguments spectrum : clear implicits.


(** A list is a contiguous part of another one. *)
Definition contiguous {A : Type} (part whole : list A) : Prop :=
  ∃ before after, whole = before ++ part ++ after.

(** Non-decreasing with respect to an order [le] on samples. *)
Definition non_decreasing {A : Type} (le : A → A → Prop) (a : list A) : Prop :=
  ∀ i x y, a !! i = Some x → a !! S i = Some y → le x y.

(** ** Numbers

    The arithmetic [Extinction] performs, kept abstract so that the same
    definition can be read over the reals and over IEEE 754 binary floats:
    the conversion of a Python [int], true division, and [np.log]. *)

Class Numeric : Type := {
  num : Type;
  of_int : Z → num;
  ndiv : num → num → num;
  nlog : num → num;
}.

(** Exact arithmetic over the reals. *)
Definition real_numeric : Numeric :=
  {| num := R; of_int := IZR; ndiv := Rdiv; nlog := ln |}.

(** [np.log] on a binary float.  The special values are those NumPy
    documents (and C99 Annex F prescribes): NaN and negative arguments give
    NaN, a zero of either sign gives minus infinity, plus infinity gives plus
    infinity, and one gives plus zero.  For every other finite positive
    argument [m * 2^e] the rounded logarithm is whatever the platform's
    library computes, [libm_log m e]. *)
Definition np_log (prec emax : Z) (libm_log : positive → Z → spec_float)
    (x : spec_float) : spec_float :=
  match x with
  | S754_nan => S754_nan
  | S754_zero _ => S754_infinity true
  | S754_infinity s => if s then S754_nan else S754_infinity false
  | S754_finite true _ _ => S754_nan
  | S754_finite false m e =>
      if SFeqb x (SFone prec emax) then S754_zero false else libm_log m e
  end.

(** IEEE 754 binary arithmetic with precision [prec] and exponent bound
    [emax] ([24], [128] for float32; [53], [1024] for float64), as NumPy
    performs it: division by zero yields an infinity or NaN and does not
    raise. *)
Definition ieee_numeric (prec emax : Z)
    (libm_log : positive → Z → spec_float) : Numeric :=
  {| num := spec_float;
     of_int := λ z, binary_normalize prec emax z 0 false;
     ndiv := SFdiv prec emax;
     nlog := np_log prec emax libm_log |}.

(** [np.isfinite]. *)
Definition np_isfinite (x : spec_float) : bool :=
  match x with
  | S754_zero _ | S754_finite _ _ _ => true
  | S754_infinity _ | S754_nan => false
  end.

(** Zero of either sign, NaN, and the sign bit. *)
Definition is_zero (x : spec_float) : bool :=
  match x with
  | S754_zero _ => true
  | _ => false
  end.

Definition np_isnan (x : spec_float) : bool :=
  match x with
  | S754_nan => true
  | _ => false
  end.

Definition np_signbit (x : spec_float) : bool :=
  match x with
  | S754_zero s | S754_infinity s | S754_finite s _ _ => s
  | S754_nan => false
  end.

(** ** NumPy arrays, the figure, and [Extinction] *)

Section Notebook.
Context {N : Numeric}.

(** [a / b] on one-dimensional arrays.  Shapes [(m,)] and [(n,)] broadcast
    when [m = n] or one of them is [1]; otherwise NumPy raises
    [ValueError] (operands could not be broadcast together). *)
Definition np_divide (a b : list num) : result (list num) :=
  if decide (length a = length b) then Ok (zip_with ndiv a b)
  else match a, b with
       | [x], _ => Ok (ndiv x <$> b)
       | _, [y] => Ok ((λ x, ndiv x y) <$> a)
       | _, _ => Raise ValueError
       end.

(** The state of the notebook that [Extinction] touches: the module-level
    variables [V_dusty], [V_nodust] and [EBV] set by earlier cells, and the
    lines drawn so far on the current figure. *)
Record kernel : Type := Kernel {
  V_dusty : num;
  V_nodust : num;
  EBV : num;
  figure : list (list num * list num);
}.

(** [plt.plot(x, y, 'o', markersize=2)]: Matplotlib raises [ValueError]
    unless [x] and [y] have the same first dimension, and otherwise adds a
    line to the current axes. *)
Definition draw (line : list num * list num) (k : kernel) : kernel :=
  {| V_dusty := V_dusty k; V_nodust := V_nodust k; EBV := EBV k;
     figure := figure k ++ [line] |}.

Definition plt_plot (x y : list num) (k : kernel) : result kernel :=
  if decide (length x = length y) then Ok (draw (x, y) k)
  else Raise ValueError.

(** The helper of the notebook:
<<
    def Extinction(wav, flux1, flux2):
        V_rat = V_dusty/V_nodust
        flux_rat = flux1/flux2
        ext = np.log(V_rat/flux_rat)/EBV
        inv_wav = 10**4/wav
        plt.plot(inv_wav, ext, 'o', markersize=2)
        return inv_wav, ext
>>
    The outcome pairs the returned tuple with the state after the call. *)
Definition Extinction (k : kernel) (wav flux1 flux2 : list num)
    : result ((list num * list num) * kernel) :=
  let V_rat := ndiv (V_dusty k) (V_nodust k) in
  flux_rat ← np_divide flux1 flux2;
  let ext := (λ x, ndiv x (EBV k)) <$> (nlog <$> (ndiv V_rat <$> flux_rat)) in
  let inv_wav := ndiv (of_int (10 ^ 4)) <$> wav in
  k' ← plt_plot inv_wav ext k;
  mret ((inv_wav, ext), k').

(** The value [Extinction] computes for one sample: [derived[i]] of the
    specification, with [V_dusty], [V_nodust] and [EBV] in the roles of
    [targetNorm], [referenceNorm] and [normDifference]. *)
Definition derived (k : kernel) (a b : num) : num :=
  ndiv (nlog (ndiv (ndiv (V_dusty k) (V_nodust k)) (ndiv a b))) (EBV k).

(** The returned tuple alone, or the exception. *)
Definition returned (r : result ((list num * list num) * kernel))
    : result (list num * list num) :=
  match r with
  | Ok (v, _) => Ok v
  | Raise e => Raise e
  end.
End Notebook.
Arguments kernel : clear implicits.

(** Single precision, the type of the columns of the IUE files, and double
    precision, NumPy's default float; the conversion of an integer literal
    to each. *)
Definition binary32 (libm_log : positive → Z → spec_float) : Numeric :=
  ieee_numeric 24 128 libm_log.

Definition binary64 (libm_log : positive → Z → spec_float) : Numeric :=
  ieee_numeric 53 1024 libm_log.

Definition f32 (z : Z) : spec_float := binary_normalize 24 128 z 0 false.

Definition f64 (z : Z) : spec_float := binary_normalize 53 1024 z 0 false.

(** [2^127] and [2^1023], finite positive floats. *)
Definition f32_huge : spec_float := binary_normalize 24 128 1 127 false.

Definition f64_huge : spec_float := binary_normalize 53 1024 1 1023 false.

(** [c * a] for a scalar [c] and an array [a]. *)
Definition f32_scale (c : spec_float) (a : list spec_float) : list spec_float :=
  SFmul 24 128 c <$> a.

Definition f64_scale (c : spec_float) (a : list spec_float) : list spec_float :=
  SFmul 53 1024 c <$> a.

(** A notebook state with float module variables and an empty figure. *)
Definition kernel32 (libm_log : positive → Z → spec_float)
    (Vd Vn E : spec_float) : kernel (binary32 libm_log) :=
  @Kernel (binary32 libm_log) Vd Vn E [].

Definition kernel64 (libm_log : positive → Z → spec_float)
    (Vd Vn E : spec_float) : kernel (binary64 libm_log) :=
  @Kernel (binary64 libm_log) Vd Vn E [].

(** ** The cells around [Extinction] *)

Section Callers.
Context {N : Numeric}.

(** [plt.figure()]: a new, empty figure becomes the current one. *)
Definition plt_figure (k : kernel N) : kernel N :=
  {| V_dusty := V_dusty k; V_nodust := V_nodust k; EBV := EBV k;
     figure := [] |}.

(** The helper of the spectrum plot:
<<
    def Plot(wav, flux, style, lbl):
        plt.plot(10**4/wav, np.log10(flux), style, label=lbl)
>>
    [np.log10] is the parameter [nlog10]; style and label do not reach the
    plotted data and are left out. *)
Definition Plot (nlog10 : num → num) (k : kernel N) (wav flux : list num)
    : result (kernel N) :=
  plt_plot (ndiv (of_int (10 ^ 4)) <$> wav) (nlog10 <$> flux) k.

(** The cell that draws the four spectra:
<<
    fig = plt.figure()
    ...
    Plot(wav_lw_dusty, flux_lw_dusty, 'r:', 'lw_dusty')
    Plot(wav_sw_dusty, flux_sw_dusty, 'r', 'sw_dusty')
    Plot(wav_lw_nodust, flux_lw_nodust, 'b:', 'lw_nodust')
    Plot(wav_sw_nodust, flux_sw_nodust, 'b', 'sw_nodust')
>> *)
Definition spectra_cell (nlog10 : num → num) (k : kernel N)
    (lw_dusty sw_dusty lw_nodust sw_nodust : spectrum num)
    : result (kernel N) :=
  k1 ← Plot nlog10 (plt_figure k) (wav lw_dusty) (flux lw_dusty);
  k2 ← Plot nlog10 k1 (wav sw_dusty) (flux sw_dusty);
  k3 ← Plot nlog10 k2 (wav lw_nodust) (flux lw_nodust);
  Plot nlog10 k3 (wav sw_nodust) (flux sw_nodust).

(** The cell that draws the extinction curve of both cameras:
<<
    plt.figure()
    s_inv_wav, s_ext = Extinction(wav_sw_dusty, flux_sw_dusty, flux_sw_nodust)
    l_inv_wav, l_ext = Extinction(wav_lw_dusty, flux_lw_dusty, flux_lw_nodust)
>>
    The outcome is the two returned tuples and the state after the cell. *)
Definition extinction_cell (k : kernel N)
    (sw_dusty sw_nodust lw_dusty lw_nodust : spectrum num)
    : result ((list num * list num) * (list num * list num) * kernel N) :=
  '(s, k1) ← Extinction (plt_figure k)
               (wav sw_dusty) (flux sw_dusty) (flux sw_nodust);
  '(l, k2) ← Extinction k1 (wav lw_dusty) (flux lw_dusty) (flux lw_nodust);
  mret (s, l, k2).

(** The edge-excision cell, with [s_crop] and [l_crop] as it sets them
    ([50] and [-50] in the notebook):
<<
    plt.figure()
    s_inv_wav, s_ext = Extinction(wav_sw_dusty[s_crop:],
                                  flux_sw_dusty[s_crop:], flux_sw_nodust[s_crop:])
    l_inv_wav, l_ext = Extinction(wav_lw_dusty[:l_crop],
                                  flux_lw_dusty[:l_crop], flux_lw_nodust[:l_crop])
>> *)
Definition excision_cell (k : kernel N) (s_crop l_crop : Z)
    (sw_dusty sw_nodust lw_dusty lw_nodust : spectrum num)
    : result ((list num * list num) * (list num * list num) * kernel N) :=
  '(s, k1) ← Extinction (plt_figure k)
               (slice_from s_crop (wav sw_dusty))
               (slice_from s_crop (flux sw_dusty))
               (slice_from s_crop (flux sw_nodust));
  '(l, k2) ← Extinction k1
               (slice_to l_crop (wav lw_dusty))
               (slice_to l_crop (flux lw_dusty))
               (slice_to l_crop (flux lw_nodust));
  mret (s, l, k2).
End Callers.

(** The photometry cell computes the colour excess from the B and V
    magnitudes of the two stars,
<<
    EBV = (B_dusty-V_dusty)-(B_nodust-V_nodust)
>>
    with the subtraction of the number type in use, and leaves [V_dusty],
    [V_nodust] and [EBV] in module scope. *)
Definition color_excess {A : Type} (sub : A → A → A)
    (B_dusty V_dusty B_nodust V_nodust : A) : A :=
  sub (sub B_dusty V_dusty) (sub B_nodust V_nodust).

Definition photometry_real (B_dusty V_dusty B_nodust V_nodust : R)
    (lines : list (list R * list R)) : kernel real_numeric :=
  @Kernel real_numeric V_dusty V_nodust
    (color_excess Rminus B_dusty V_dusty B_nodust V_nodust) lines.

Definition photometry_ieee (prec emax : Z)
    (libm_log : positive → Z → spec_float)
    (B_dusty V_dusty B_nodust V_nodust : spec_float)
    (lines : list (list spec_float * list spec_float))
    : kernel (ieee_numeric prec emax libm_log) :=
  @Kernel (ieee_numeric prec emax libm_log) V_dusty V_nodust
    (color_excess (SFsub prec emax) B_dusty V_dusty B_nodust V_nodust) lines.

(** Whether an outcome is a value. *)
Definition returns {A : Type} (r : result A) : Prop := ∃ v, r = Ok v.

(** ** Slices as prefixes and suffixes *)

Lemma slice_from_drop {A} (i : Z) (a : list A) :
  (0 ≤ i)%Z → slice_from i a = drop (Z.to_nat i) a.
Proof.
  intros Hi. unfold slice_from, py_slice, adjust_index; simpl.
  destruct (Z.ltb_spec i 0) as [Hneg|_]; [lia|].
  destruct (Z.le_gt_cases i (Z.of_nat (length a))) as [Hle|Hgt].
  - rewrite Z.min_l by done. apply take_ge. rewrite length_drop. lia.
  - rewrite Z.min_r by lia. rewrite Nat2Z.id, Z.sub_diag. simpl.
    symmetry. apply drop_ge. lia.
Qed.

Lemma slice_to_take {A} (j : Z) (a : list A) :
  (0 ≤ j)%Z → slice_to j a = take (Z.to_nat j) a.
Proof.
  intros Hj. unfold slice_to, py_slice, adjust_index; simpl.
  destruct (Z.ltb_spec j 0) as [Hneg|_]; [lia|].
  rewrite Z.sub_0_r. change (drop (Z.to_nat 0) a) with a.
  destruct (Z.le_gt_cases j (Z.of_nat (length a))) as [Hle|Hgt].
  - by rewrite Z.min_l.
  - rewrite Z.min_r by lia. rewrite Nat2Z.id.
    rewrite take_ge by lia. rewrite take_ge by lia. done.
Qed.

Lemma slice_to_neg {A} (j : Z) (a : list A) :
  (j < 0)%Z → slice_to j a = take (length a - Z.to_nat (- j)) a.
Proof.
  intros Hj. unfold slice_to, py_slice, adjust_index; simpl.
  destruct (Z.ltb_spec j 0) as [_|Hpos]; [|lia].
  rewrite Z.sub_0_r. change (drop (Z.to_nat 0) a) with a. f_equal. lia.
Qed.

(** ** Contiguous parts *)

Lemma contiguous_refl {A} (a : list A) : contiguous a a.
Proof. exists [], []. by rewrite app_nil_r. Qed.

Lemma contiguous_trans {A} (a b c : list A) :
  contiguous a b → contiguous b c → contiguous a c.
Proof.
  intros (p1 & q1 & ->) (p2 & q2 & ->).
  exists (p2 ++ p1), (q1 ++ q2). by rewrite <-!app_assoc.
Qed.

Lemma contiguous_take_drop {A} (n m : nat) (a : list A) :
  contiguous (take n (drop m a)) a.
Proof.
  exists (take m a), (drop n (drop m a)).
  by rewrite take_drop, take_drop.
Qed.

Lemma contiguous_py_slice {A} (start stop : option Z) (a : list A) :
  contiguous (py_slice start stop a) a.
Proof. apply contiguous_take_drop. Qed.

Lemma contiguous_length {A} (part whole : list A) :
  contiguous part whole → length part ≤ length whole.
Proof. intros (p & q & ->). rewrite !length_app. lia. Qed.

Lemma contiguous_lookup {A} (part whole : list A) :
  contiguous part whole →
  ∃ off, ∀ i x, part !! i = Some x → whole !! (off + i) = Some x.
Proof.
  intros (p & q & ->). exists (length p). intros i x Hi.
  rewrite lookup_app_r by lia.
  replace (length p + i - length p) with i by lia.
  by apply lookup_app_l_Some.
Qed.

Lemma non_decreasing_contiguous {A} (le : A → A → Prop) (part whole : list A) :
  contiguous part whole → non_decreasing le whole → non_decreasing le part.
Proof.
  intros Hc Hwhole i x y Hx Hy.
  destruct (contiguous_lookup _ _ Hc) as [off Hoff].
  apply (Hwhole (off + i)); [by apply Hoff|].
  replace (S (off + i)) with (off + S i) by lia. by apply Hoff.
Qed.

(** ** [crop] in closed form *)

Lemma crop_total {A} (a : list A) (s e : Z) :
  ∃ r, crop a s e = Ok r ∧ contiguous r a.
Proof.
  unfold crop. eexists; split; [done|].
  eapply contiguous_trans; apply contiguous_py_slice.
Qed.

(** With a positive end offset the two slices leave the middle part. *)
Lemma crop_positive_end {A} (a : list A) (s e : Z) :
  (0 ≤ s)%Z → (0 < e)%Z →
  crop a s e =
    Ok (take (length a - Z.to_nat s - Z.to_nat e) (drop (Z.to_nat s) a)).
Proof.
  intros Hs He. unfold crop. f_equal.
  rewrite slice_from_drop by done.
  rewrite slice_to_neg by lia.
  rewrite length_drop, Z.opp_involutive. done.
Qed.

(** With the end offset zero the second slice is [[:0]]: nothing is left,
    whatever the start offset. *)
Lemma crop_zero_end {A} (a : list A) (s : Z) : crop a s 0 = Ok [].
Proof.
  unfold crop. f_equal. change (- 0)%Z with 0%Z.
  rewrite slice_to_take by done. done.
Qed.

Lemma crop_exhausted {A} (a : list A) (s e : Z) :
  (0 ≤ s)%Z → (0 ≤ e)%Z → (Z.of_nat (length a) ≤ s + e)%Z →
  crop a s e = Ok [].
Proof.
  intros Hs He Hlen.
  destruct (Z.eq_dec e 0%Z) as [->|Hne]; [apply crop_zero_end|].
  rewrite crop_positive_end by lia.
  replace (length a - Z.to_nat s - Z.to_nat e) with 0 by lia. done.
Qed.

(** ** Edge excision *)







(** C9: [crop] is total and raises for no offsets; with non-negative
    offsets such that [s + e >= len(seq)] the slices clamp and the outcome
    is a shorter sequence, in fact the empty one. *)
Theorem crop_clamps {A} (a : list A) (s e : Z) :
  ∃ r, crop a s e = Ok r
       ∧ ¬ raises (crop a s e)
       ∧ length r ≤ length a
       ∧ ((0 ≤ s)%Z → (0 ≤ e)%Z → (Z.of_nat (length a) ≤ s + e)%Z →
            r = [] ∧ (a ≠ [] → length r < length a)).
Proof.
  destruct (crop_total a s e) as (r & Hr & Hc). exists r.
  split; [done|]. split; [rewrite Hr; simpl; tauto|].
  split; [by apply contiguous_length|].
  intros Hs He Hlen. rewrite crop_exhausted in Hr by done.
  injection Hr as <-. split; [done|].
  destruct a; [done|]. simpl. lia.
Qed.

(** ** Alignment *)


Lemma align_fst {T} (dusty nodust : spectrum T) :
  (align dusty nodust).1 = dusty.
Proof. done. Qed.

Lemma align_snd_wav {T} (dusty nodust : spectrum T) :
  wav (align dusty nodust).2 = take (length (wav dusty)) (wav nodust).
Proof. simpl. rewrite slice_to_take by lia. by rewrite Nat2Z.id. Qed.

Lemma align_snd_flux {T} (dusty nodust : spectrum T) :
  flux (align dusty nodust).2 = take (length (flux dusty)) (flux nodust).
Proof. simpl. rewrite slice_to_take by lia. by rewrite Nat2Z.id. Qed.

(** C8: the alignment is one-sided.  The dusty (target) spectrum comes back
    unchanged and only the nodust (reference) arrays are cut, to the length
    of the dusty ones; when the dusty array is the longer one nothing is
    shortened and the lengths stay different. *)
Theorem align_one_sided {T} (dusty nodust : spectrum T) :
  (align dusty nodust).1 = dusty
  ∧ wav (align dusty nodust).2 = take (length (wav dusty)) (wav nodust)
  ∧ flux (align dusty nodust).2 = take (length (flux dusty)) (flux nodust)
  ∧ (length (wav nodust) < length (wav dusty) →
       wav (align dusty nodust).2 = wav nodust
       ∧ length (wav (align dusty nodust).2)
           ≠ length (wav (align dusty nodust).1))
  ∧ (length (flux nodust) < length (flux dusty) →
       flux (align dusty nodust).2 = flux nodust
       ∧ length (flux (align dusty nodust).2)
           ≠ length (flux (align dusty nodust).1)).
Proof.
  rewrite align_snd_wav, align_snd_flux, align_fst.
  repeat split; try done.
  - apply take_ge. lia.
  - rewrite length_take. lia.
  - apply take_ge. lia.
  - rewrite length_take. lia.
Qed.



(** ** Invariants kept by the slices *)

Lemma length_py_slice_eq {A B} (start stop : option Z) (a : list A) (b : list B) :
  length a = length b →
  length (py_slice start stop a) = length (py_slice start stop b).
Proof.
  intros Hlen. unfold py_slice.
  by rewrite !length_take, !length_drop, Hlen.
Qed.

Lemma crop_length_eq {A B} (a : list A) (b : list B) (s e : Z) ra rb :
  length a = length b →
  crop a s e = Ok ra → crop b s e = Ok rb → length ra = length rb.
Proof.
  unfold crop, slice_to, slice_from. intros Hlen [= <-] [= <-].
  repeat apply length_py_slice_eq; done.
Qed.

Lemma crop_spectrum_inv {T} (sp sp' : spectrum T) (s e : Z) :
  crop_spectrum sp s e = Ok sp' →
  crop (wav sp) s e = Ok (wav sp') ∧ crop (flux sp) s e = Ok (flux sp').
Proof. unfold crop_spectrum, crop. by intros [= <-]. Qed.

Lemma crop_contiguous {A} (a r : list A) (s e : Z) :
  crop a s e = Ok r → contiguous r a.
Proof.
  intros Hr. destruct (crop_total a s e) as (r' & Hr' & Hc). congruence.
Qed.

Lemma align_contiguous {T} (dusty nodust : spectrum T) :
  contiguous (wav (align dusty nodust).1) (wav dusty)
  ∧ contiguous (flux (align dusty nodust).1) (flux dusty)
  ∧ contiguous (wav (align dusty nodust).2) (wav nodust)
  ∧ contiguous (flux (align dusty nodust).2) (flux nodust).
Proof.
  repeat split;
    first [apply contiguous_refl | apply contiguous_py_slice].
Qed.

(** C10 fails on the code in its last part: the nodust arrays are cut to
    the two lengths of the dusty arrays, so a nodust spectrum of five
    wavelengths and five fluxes comes out with two and four when the dusty
    one has two wavelengths and four fluxes. *)
Lemma align_unequal_target_lengths :
  let dusty := Spectrum [1; 2]%Z [10; 20; 30; 40]%Z in
  let nodust := Spectrum [1; 2; 3; 4; 5]%Z [11; 21; 31; 41; 51]%Z in
  length (wav nodust) = length (flux nodust)
  ∧ (align dusty nodust).2 = Spectrum [1; 2]%Z [11; 21; 31; 41]%Z
  ∧ length (wav (align dusty nodust).2)
      ≠ length (flux (align dusty nodust).2)
  ∧ ¬ (∀ dusty nodust : spectrum Z,
         length (wav nodust) = length (flux nodust) →
         length (wav (align dusty nodust).2)
           = length (flux (align dusty nodust).2)).
Proof.
  intros dusty nodust. split; [done|]. split; [done|]. split; [done|].
  intros Hall. by specialize (Hall dusty nodust eq_refl).
Qed.

(** C10, amended: [align] and [crop] return contiguous parts of their
    inputs, so an invariant that contiguous parts inherit is kept; in
    particular a non-decreasing wavelength array stays non-decreasing.  A
    cropped spectrum and the dusty output of [align] keep wavelength and
    flux arrays of equal length; the nodust output of [align] does when the
    arrays of both input spectra have equal lengths. *)
Theorem slices_keep_invariants (T : Type) :
  (∀ (a r : list T) (s e : Z), crop a s e = Ok r → contiguous r a)
  ∧ (∀ dusty nodust : spectrum T,
       contiguous (wav (align dusty nodust).1) (wav dusty)
       ∧ contiguous (flux (align dusty nodust).1) (flux dusty)
       ∧ contiguous (wav (align dusty nodust).2) (wav nodust)
       ∧ contiguous (flux (align dusty nodust).2) (flux nodust))
  ∧ (∀ P : list T → Prop,
       (∀ part whole, contiguous part whole → P whole → P part) →
       (∀ a r s e, crop a s e = Ok r → P a → P r)
       ∧ (∀ dusty nodust : spectrum T,
            (P (wav dusty) → P (wav (align dusty nodust).1))
            ∧ (P (flux dusty) → P (flux (align dusty nodust).1))
            ∧ (P (wav nodust) → P (wav (align dusty nodust).2))
            ∧ (P (flux nodust) → P (flux (align dusty nodust).2))))
  ∧ (∀ (le : T → T → Prop) (sp sp' : spectrum T) (s e : Z),
       crop_spectrum sp s e = Ok sp' →
       non_decreasing le (wav sp) → non_decreasing le (wav sp'))
  ∧ (∀ (le : T → T → Prop) (dusty nodust : spectrum T),
       (non_decreasing le (wav dusty) →
          non_decreasing le (wav (align dusty nodust).1))
       ∧ (non_decreasing le (wav nodust) →
            non_decreasing le (wav (align dusty nodust).2)))
  ∧ (∀ (sp sp' : spectrum T) (s e : Z),
       crop_spectrum sp s e = Ok sp' →
       length (wav sp) = length (flux sp) →
       length (wav sp') = length (flux sp'))
  ∧ (∀ dusty nodust : spectrum T,
       length (wav dusty) = length (flux dusty) →
       length (wav (align dusty nodust).1)
         = length (flux (align dusty nodust).1)
       ∧ (length (wav nodust) = length (flux nodust) →
            length (wav (align dusty nodust).2)
              = length (flux (align dusty nodust).2))).
Proof.
  split; [apply @crop_contiguous|].
  split; [apply align_contiguous|].
  split.
  { intros P Hclosed. split.
    - intros a r s e Hr. apply Hclosed. by eapply crop_contiguous.
    - intros dusty nodust.
      destruct (align_contiguous dusty nodust) as (H1 & H2 & H3 & H4).
      repeat split; by apply Hclosed. }
  split.
  { intros le sp sp' s e [Hw _]%crop_spectrum_inv.
    apply non_decreasing_contiguous. by eapply crop_contiguous. }
  split.
  { intros le dusty nodust.
    destruct (align_contiguous dusty nodust) as (H1 & _ & H3 & _).
    split; by apply non_decreasing_contiguous. }
  split.
  { intros sp sp' s e [Hw Hf]%crop_spectrum_inv Hlen.
    by eapply crop_length_eq. }
  intros dusty nodust Hd. split; [done|]. intros Hn.
  rewrite align_snd_wav, align_snd_flux, !length_take. lia.
Qed.

(** ** The extinction curve *)

Section ExtinctionFacts.
Context {N : Numeric}.
Implicit Types (k : kernel N) (wav flux : list num).

Lemma fmap_zip_with_post {A B C D} (g : C → D) (f : A → B → C) a b :
  g <$> zip_with f a b = zip_with (λ x y, g (f x y)) a b.
Proof.
  revert b. induction a as [|x a IH]; intros [|y b]; simpl; [done..|].
  by rewrite IH.
Qed.

Lemma np_divide_same_length (flux1 flux2 : list num) :
  length flux1 = length flux2 →
  np_divide flux1 flux2 = Ok (zip_with ndiv flux1 flux2).
Proof. intros Hlen. unfold np_divide. by rewrite decide_True. Qed.

Lemma Extinction_same_length k wav (flux1 flux2 : list num) :
  length flux1 = length flux2 → length wav = length flux1 →
  Extinction k wav flux1 flux2 =
    Ok ((ndiv (of_int (10 ^ 4)) <$> wav, zip_with (derived k) flux1 flux2),
        draw (ndiv (of_int (10 ^ 4)) <$> wav,
              zip_with (derived k) flux1 flux2) k).
Proof.
  intros Hflux Hwav. unfold Extinction.
  rewrite np_divide_same_length by done. cbn [mbind result_bind].
  rewrite !fmap_zip_with_post. fold (derived k).
  unfold plt_plot. rewrite decide_True; [done|].
  rewrite length_fmap, length_zip_with. lia.
Qed.

Lemma Extinction_samples k wav (flux1 flux2 : list num) :
  length flux1 = length flux2 → length wav = length flux1 →
  ∃ inv_wav ext k',
    Extinction k wav flux1 flux2 = Ok ((inv_wav, ext), k')
    ∧ ∀ i a b, flux1 !! i = Some a → flux2 !! i = Some b →
        ext !! i = Some (derived k a b).
Proof.
  intros Hflux Hwav. eexists _, _, _.
  split; [by apply Extinction_same_length|].
  intros i a b Ha Hb. by rewrite lookup_zip_with, Ha, Hb.
Qed.

Lemma Extinction_incompatible k wav (flux1 flux2 : list num) :
  length flux1 ≠ length flux2 → length flux1 ≠ 1 → length flux2 ≠ 1 →
  Extinction k wav flux1 flux2 = Raise ValueError.
Proof.
  intros Hne H1 H2. unfold Extinction, np_divide.
  rewrite decide_False by done.
  by destruct flux1 as [|? [|? ?]], flux2 as [|? [|? ?]].
Qed.

Lemma Extinction_outcome k wav (flux1 flux2 : list num) v k' :
  Extinction k wav flux1 flux2 = Ok (v, k') → k' = draw v k.
Proof.
  unfold Extinction. destruct (np_divide flux1 flux2) as [r|]; [|done].
  cbn [mbind result_bind]. unfold plt_plot. case_decide; [|done].
  cbn [mbind result_bind mret result_ret]. by intros [= <- <-].
Qed.

Lemma Extinction_returned_frame k1 k2 wav (flux1 flux2 : list num) :
  V_dusty k1 = V_dusty k2 → V_nodust k1 = V_nodust k2 → EBV k1 = EBV k2 →
  returned (Extinction k1 wav flux1 flux2)
  = returned (Extinction k2 wav flux1 flux2).
Proof.
  intros Hd Hn He. unfold Extinction. rewrite Hd, Hn, He.
  destruct (np_divide flux1 flux2) as [r|]; [|done].
  cbn [mbind result_bind]. unfold plt_plot. by case_decide.
Qed.
End ExtinctionFacts.

(** C1: on flux arrays of equal length (and a wavelength array of that
    length) [Extinction] returns arrays of the same length with
    [ext[i] = ln((V_dusty/V_nodust) / (flux1[i]/flux2[i])) / EBV] and
    [inv_wav[i] = 10^4 / wav[i]]; on fluxes [1, 2, 4] and [2, 2, 2] with
    norms [1] and [2] and norm difference [1] the derived values are
    [ln 1], [ln 0.5] and [ln 0.25]. *)
Theorem Extinction_formula :
  (∀ (N : Numeric) (k : kernel N) (wav flux1 flux2 : list num),
     length flux1 = length flux2 → length wav = length flux1 →
     ∃ inv_wav ext k',
       Extinction k wav flux1 flux2 = Ok ((inv_wav, ext), k')
       ∧ length ext = length flux1
       ∧ length inv_wav = length flux1
       ∧ ∀ i a b w,
           flux1 !! i = Some a → flux2 !! i = Some b → wav !! i = Some w →
           ext !! i
             = Some (ndiv (nlog (ndiv (ndiv (V_dusty k) (V_nodust k))
                                      (ndiv a b)))
                          (EBV k))
           ∧ inv_wav !! i = Some (ndiv (of_int 10000) w))
  ∧ (∀ (w0 w1 w2 : R) (lines : list (list R * list R)),
       returned (Extinction (N := real_numeric)
                   (@Kernel real_numeric 1%R 2%R 1%R lines)
                   [w0; w1; w2] [1; 2; 4]%R [2; 2; 2]%R)
       = Ok ([10000 / w0; 10000 / w1; 10000 / w2]%R,
             [ln 1; ln (1 / 2); ln (1 / 4)]%R)).
Proof.
  split.
  - intros N k wav flux1 flux2 Hflux Hwav.
    eexists _, _, _. split; [by apply Extinction_same_length|].
    rewrite length_zip_with, length_fmap.
    split; [lia|]. split; [lia|].
    intros i a b w Ha Hb Hw. split.
    + rewrite lookup_zip_with, Ha, Hb. done.
    + rewrite list_lookup_fmap, Hw. done.
  - intros w0 w1 w2 lines.
    rewrite Extinction_same_length by done.
    cbn [returned zip_with fmap list_fmap]. unfold derived.
    cbn [V_dusty V_nodust EBV ndiv nlog of_int real_numeric].
    change (10 ^ 4)%Z with 10000%Z.
    replace (1 / 2 / (1 / 2))%R with 1%R by lra.
    replace (1 / 2 / (2 / 2))%R with (1 / 2)%R by lra.
    replace (1 / 2 / (4 / 2))%R with (1 / 4)%R by lra.
    by rewrite !Rdiv_1_r.
Qed.

Lemma Extinction_formula_witness :
  ∃ inv_wav ext k',
    Extinction (N := real_numeric)
      (@Kernel real_numeric 1%R 2%R 1%R [])
      [1000; 2000]%R [1; 2]%R [2; 2]%R = Ok ((inv_wav, ext), k')
    ∧ length ext = length [1; 2]%R
    ∧ length inv_wav = length [1; 2]%R
    ∧ ∀ i a b w,
        [1; 2]%R !! i = Some a → [2; 2]%R !! i = Some b →
        [1000; 2000]%R !! i = Some w →
        ext !! i = Some (ln (1 / 2 / (a / b)) / 1)%R
        ∧ inv_wav !! i = Some (10000 / w)%R.
Proof.
  apply (proj1 Extinction_formula real_numeric
           (@Kernel real_numeric 1%R 2%R 1%R [])
           [1000; 2000]%R [1; 2]%R [2; 2]%R); reflexivity.
Defined.

(** ** Zero denominators in floating point *)

Section Degenerate.
Variables (prec emax : Z) (libm_log : positive → Z → spec_float).
Local Abbreviation F := (ieee_numeric prec emax libm_log).

Lemma SFdiv_zero_r (a : spec_float) (s : bool) :
  SFdiv prec emax a (S754_zero s)
  = if is_zero a || np_isnan a then S754_nan
    else S754_infinity (xorb (np_signbit a) s).
Proof. by destruct a. Qed.

Lemma derived_zero_reference (k : kernel F) (a : spec_float) (s : bool) :
  np_isfinite (derived k a (S754_zero s)) = false.
Proof.
  unfold derived. cbn [ndiv nlog ieee_numeric].
  rewrite SFdiv_zero_r.
  generalize (SFdiv prec emax (V_dusty k) (V_nodust k)). intros V_rat.
  destruct (is_zero a || np_isnan a), V_rat, (EBV k); done.
Qed.

Lemma derived_zero_norm (k : kernel F) (a b : spec_float) :
  is_zero (V_nodust k) = true → np_isfinite (derived k a b) = false.
Proof.
  unfold derived. cbn [ndiv nlog ieee_numeric].
  destruct (V_nodust k) as [s| | |]; try done. intros _.
  rewrite SFdiv_zero_r.
  generalize (SFdiv prec emax a b). intros flux_rat.
  destruct (is_zero (V_dusty k) || np_isnan (V_dusty k)), flux_rat as [[]|[]| |[] ? ?],
    (np_signbit (V_dusty k)), s, (EBV k); done.
Qed.

Lemma derived_zero_reference_nan (k : kernel F) (a : spec_float) (s : bool) :
  is_zero a || np_isnan a = true → derived k a (S754_zero s) = S754_nan.
Proof.
  intros Ha. unfold derived. cbn [ndiv nlog ieee_numeric].
  rewrite SFdiv_zero_r, Ha.
  by destruct (SFdiv prec emax (V_dusty k) (V_nodust k)).
Qed.

Lemma derived_zero_reference_inf (k : kernel F) (a : spec_float) (s : bool) :
  is_zero a || np_isnan a = false →
  np_isfinite (SFdiv prec emax (V_dusty k) (V_nodust k)) = true →
  np_isfinite (EBV k) = true →
  derived k a (S754_zero s) = S754_infinity (negb (np_signbit (EBV k))).
Proof.
  intros Ha. unfold derived. cbn [ndiv nlog ieee_numeric].
  rewrite SFdiv_zero_r, Ha.
  destruct (SFdiv prec emax (V_dusty k) (V_nodust k)), (EBV k); done.
Qed.
End Degenerate.

(** With a zero [flux2[i]] the sign of [flux1[i]] does not reach the
    outcome: [3/0] and [-3/0] are the two infinities, the norm ratio divided
    by them the two zeros, and the logarithm of either zero is minus
    infinity. *)
Lemma derived_zero_reference_f64 (libm_log : positive → Z → spec_float) :
  let k := kernel64 libm_log (f64 1) (f64 2) (f64 1) in
  derived k (f64 3) (f64 0) = S754_infinity true
  ∧ derived k (f64 (-3)) (f64 0) = S754_infinity true
  ∧ derived k (f64 0) (f64 0) = S754_nan.
Proof. intros k. repeat split; by vm_compute. Qed.

(** The same through [Extinction], in double precision: fluxes [3], [-3]
    and [0] over a zero reference come out as minus infinity, minus infinity
    and NaN, and nothing is raised. *)
Lemma Extinction_zero_reference_f64 (libm_log : positive → Z → spec_float) :
  returned (Extinction (kernel64 libm_log (f64 1) (f64 2) (f64 1))
              [f64 1200; f64 1201; f64 1202]
              [f64 3; f64 (-3); f64 0] [f64 0; f64 0; f64 0])
  = Ok (SFdiv 53 1024 (f64 10000) <$> [f64 1200; f64 1201; f64 1202],
        [S754_infinity true; S754_infinity true; S754_nan]).
Proof.
  rewrite Extinction_same_length by done.
  destruct (derived_zero_reference_f64 libm_log) as (Hpos & Hneg & Hnan).
  cbn [returned zip_with]. by rewrite Hpos, Hneg, Hnan.
Qed.

(** C5: on the equal-length arrays it is written for, [Extinction] does not
    raise, whatever the values; [V_dusty], [V_nodust] and [EBV] are NumPy
    scalars, as the photometry cell binds them.  Where [flux2[i]] is zero,
    or [V_nodust] is, the derived value is not finite (an infinity or NaN),
    and no denominator is treated specially: with [flux2[i]] zero it is NaN
    if [flux1[i]] is zero or NaN, and otherwise, for a finite norm ratio and
    a finite [EBV], the infinity whose sign is opposite to that of [EBV]. *)
Theorem Extinction_zero_denominator (prec emax : Z)
    (libm_log : positive → Z → spec_float)
    (k : kernel (ieee_numeric prec emax libm_log))
    (wav flux1 flux2 : list spec_float) :
  length flux1 = length flux2 → length wav = length flux1 →
  ∃ inv_wav ext k',
    Extinction k wav flux1 flux2 = Ok ((inv_wav, ext), k')
    ∧ (∀ i a b,
         flux1 !! i = Some a → flux2 !! i = Some b →
         is_zero b = true ∨ is_zero (V_nodust k) = true →
         ∃ d, ext !! i = Some d ∧ np_isfinite d = false)
    ∧ (∀ i a b,
         flux1 !! i = Some a → flux2 !! i = Some b → is_zero b = true →
         (is_zero a || np_isnan a = true → ext !! i = Some S754_nan)
         ∧ (is_zero a || np_isnan a = false →
            np_isfinite (SFdiv prec emax (V_dusty k) (V_nodust k)) = true →
            np_isfinite (EBV k) = true →
            ext !! i = Some (S754_infinity (negb (np_signbit (EBV k)))))).
Proof.
  intros Hflux Hwav.
  destruct (Extinction_samples k wav flux1 flux2 Hflux Hwav)
    as (inv_wav & ext & k' & Hrun & Hext).
  exists inv_wav, ext, k'. split; [done|]. split.
  - intros i a b Ha Hb Hzero. exists (derived k a b).
    split; [by apply Hext|].
    destruct Hzero as [Hz|Hz].
    + destruct b; try done. apply derived_zero_reference.
    + by apply derived_zero_norm.
  - intros i a b Ha Hb Hz. specialize (Hext i a b Ha Hb).
    destruct b as [s| | |]; try done. split.
    + intros Hnan. etrans; [exact Hext|]. f_equal.
      by apply derived_zero_reference_nan.
    + intros Hnum Hrat Hebv. etrans; [exact Hext|]. f_equal.
      by apply derived_zero_reference_inf.
Qed.

Lemma Extinction_zero_denominator_witness :
  ∃ inv_wav ext k',
    Extinction (kernel64 (λ _ _, S754_nan) (f64 1) (f64 2) (f64 1))
      [f64 1200; f64 1201] [f64 3; f64 0] [f64 0; f64 0]
    = Ok ((inv_wav, ext), k')
    ∧ (∀ i a b,
         [f64 3; f64 0] !! i = Some a → [f64 0; f64 0] !! i = Some b →
         is_zero b = true ∨ is_zero (f64 2) = true →
         ∃ d, ext !! i = Some d ∧ np_isfinite d = false)
    ∧ (∀ i a b,
         [f64 3; f64 0] !! i = Some a → [f64 0; f64 0] !! i = Some b →
         is_zero b = true →
         (is_zero a || np_isnan a = true → ext !! i = Some S754_nan)
         ∧ (is_zero a || np_isnan a = false →
            np_isfinite (SFdiv 53 1024 (f64 1) (f64 2)) = true →
            np_isfinite (f64 1) = true →
            ext !! i = Some (S754_infinity (negb (np_signbit (f64 1)))))).
Proof.
  apply (Extinction_zero_denominator 53 1024 (λ _ _, S754_nan)
           (kernel64 (λ _ _, S754_nan) (f64 1) (f64 2) (f64 1))
           [f64 1200; f64 1201] [f64 3; f64 0] [f64 0; f64 0]);
    reflexivity.
Defined.

(** ** Scaling both fluxes *)

Lemma Rdiv_scale (c a b : R) : c ≠ 0%R → (c * a / (c * b))%R = (a / b)%R.
Proof.
  intros Hc. destruct (Req_dec b 0) as [->|Hb].
  - rewrite Rmult_0_r. unfold Rdiv. rewrite Rinv_0. ring.
  - by field.
Qed.

Lemma np_divide_scale (c : R) (flux1 flux2 : list R) :
  c ≠ 0%R →
  np_divide (N := real_numeric) (Rmult c <$> flux1) (Rmult c <$> flux2)
  = np_divide (N := real_numeric) flux1 flux2.
Proof.
  intros Hc. unfold np_divide. rewrite !length_fmap.
  assert (∀ a b : list R,
    zip_with Rdiv (Rmult c <$> a) (Rmult c <$> b) = zip_with Rdiv a b)
    as Hzip.
  { induction a as [|x a IH]; intros [|y b]; [done..|].
    cbn [fmap list_fmap zip_with]. f_equal; [by apply Rdiv_scale|apply IH]. }
  assert (∀ (x : R) (b : list R),
    Rdiv (c * x) <$> (Rmult c <$> b) = Rdiv x <$> b) as Hleft.
  { intros x. induction b as [|y b IH]; [done|].
    cbn [fmap list_fmap]. f_equal; [by apply Rdiv_scale|apply IH]. }
  assert (∀ (y : R) (a : list R),
    (λ x, x / (c * y))%R <$> (Rmult c <$> a) = (λ x, x / y)%R <$> a) as Hright.
  { intros y. induction a as [|x a IH]; [done|].
    cbn [fmap list_fmap]. f_equal; [by apply Rdiv_scale|apply IH]. }
  repeat case_decide; try done.
  - f_equal. apply Hzip.
  - destruct flux1 as [|x [|x' flux1]], flux2 as [|y [|y' flux2]];
      try done; cbn [fmap list_fmap ndiv real_numeric].
    + f_equal. apply (Hleft x (y :: y' :: flux2)).
    + f_equal. apply (Hright y (x :: x' :: flux1)).
Qed.

(** The two returned arrays are compared component by component; each
    component is a closed float expression and is evaluated. *)
Ltac by_float_evaluation :=
  cbn [returned]; f_equal; f_equal; by vm_compute.

(** Scaling [2.0] by [2^1023] (by [2^127] in single precision) overflows
    to infinity; the flux ratio is then NaN instead of [1.0], and so is the
    derived value instead of [0.0], whatever the platform's logarithm does
    elsewhere. *)
Lemma scaled_flux_overflows_f64 (libm_log : positive → Z → spec_float) :
  let k := kernel64 libm_log (f64 1) (f64 1) (f64 1) in
  f64_scale f64_huge [f64 2] = [S754_infinity false]
  ∧ returned (Extinction k [f64 1200] [f64 2] [f64 2])
    = Ok ([SFdiv 53 1024 (f64 10000) (f64 1200)], [S754_zero false])
  ∧ returned (Extinction k [f64 1200]
                (f64_scale f64_huge [f64 2]) (f64_scale f64_huge [f64 2]))
    = Ok ([SFdiv 53 1024 (f64 10000) (f64 1200)], [S754_nan]).
Proof.
  intros k. split; [by vm_compute|].
  split; rewrite Extinction_same_length by done; by_float_evaluation.
Qed.

Lemma scaled_flux_overflows_f32 (libm_log : positive → Z → spec_float) :
  let k := kernel32 libm_log (f32 1) (f32 1) (f32 1) in
  f32_scale f32_huge [f32 2] = [S754_infinity false]
  ∧ returned (Extinction k [f32 1200] [f32 2] [f32 2])
    = Ok ([SFdiv 24 128 (f32 10000) (f32 1200)], [S754_zero false])
  ∧ returned (Extinction k [f32 1200]
                (f32_scale f32_huge [f32 2]) (f32_scale f32_huge [f32 2]))
    = Ok ([SFdiv 24 128 (f32 10000) (f32 1200)], [S754_nan]).
Proof.
  intros k. split; [by vm_compute|].
  split; rewrite Extinction_same_length by done; by_float_evaluation.
Qed.

(** C6 fails on the code, where the fluxes are floats: for the positive
    double [c = 2^1023] and fluxes [[2.0]] and [[2.0]] the scaled arrays
    overflow and the derived sequence is [[nan]], not [[0.0]]; likewise in
    single precision for [c = 2^127]. *)
Lemma scaling_law_overflow :
  (SFltb (S754_zero false) f64_huge = true
   ∧ np_isfinite f64_huge = true
   ∧ ¬ (∀ libm_log,
          returned (Extinction (kernel64 libm_log (f64 1) (f64 1) (f64 1))
                      [f64 1200]
                      (f64_scale f64_huge [f64 2])
                      (f64_scale f64_huge [f64 2]))
          = returned (Extinction (kernel64 libm_log (f64 1) (f64 1) (f64 1))
                        [f64 1200] [f64 2] [f64 2])))
  ∧ (SFltb (S754_zero false) f32_huge = true
     ∧ np_isfinite f32_huge = true
     ∧ ¬ (∀ libm_log,
            returned (Extinction (kernel32 libm_log (f32 1) (f32 1) (f32 1))
                        [f32 1200]
                        (f32_scale f32_huge [f32 2])
                        (f32_scale f32_huge [f32 2]))
            = returned (Extinction (kernel32 libm_log (f32 1) (f32 1) (f32 1))
                          [f32 1200] [f32 2] [f32 2]))).
Proof.
  split; (split; [by vm_compute|]); (split; [by vm_compute|]);
    intros Hsame; specialize (Hsame (λ _ _, S754_nan)).
  - destruct (scaled_flux_overflows_f64 (λ _ _, S754_nan))
      as (_ & Hplain & Hscaled).
    rewrite Hplain, Hscaled in Hsame. discriminate Hsame.
  - destruct (scaled_flux_overflows_f32 (λ _ _, S754_nan))
      as (_ & Hplain & Hscaled).
    rewrite Hplain, Hscaled in Hsame. discriminate Hsame.
Qed.

(** C6, amended: in exact (real) arithmetic, multiplying both flux arrays
    by one positive constant leaves the outcome of [Extinction], and so the
    derived sequence, unchanged. *)
Theorem scaling_law_exact (k : kernel real_numeric)
    (wav flux1 flux2 : list R) (c : R) :
  (0 < c)%R →
  Extinction k wav (Rmult c <$> flux1) (Rmult c <$> flux2)
  = Extinction k wav flux1 flux2.
Proof.
  intros Hc. unfold Extinction.
  rewrite np_divide_scale; [done|]. lra.
Qed.

Lemma scaling_law_exact_witness :
  Extinction (@Kernel real_numeric 1%R 2%R 1%R []) [1200; 1300; 1400]%R
    (Rmult 3 <$> [1; 2; 4]%R) (Rmult 3 <$> [2; 2; 2]%R)
  = Extinction (@Kernel real_numeric 1%R 2%R 1%R []) [1200; 1300; 1400]%R
      [1; 2; 4]%R [2; 2; 2]%R.
Proof.
  apply (scaling_law_exact (@Kernel real_numeric 1%R 2%R 1%R [])
           [1200; 1300; 1400]%R [1; 2; 4]%R [2; 2; 2]%R 3%R).
  lra.
Defined.

(** ** What [Extinction] depends on, and what it changes *)

(** C7 fails on the code: [Extinction] is not free of state.  A call adds
    a line to the current figure, and what it returns varies with the
    module-level [V_dusty] although the three arguments are the same. *)
Lemma Extinction_reads_and_draws :
  (∃ v k',
     Extinction (@Kernel real_numeric 1%R 2%R 1%R []) [1200]%R [1]%R [2]%R
     = Ok (v, k')
     ∧ figure k' = [v]
     ∧ figure k' ≠ figure (@Kernel real_numeric 1%R 2%R 1%R []))
  ∧ returned (Extinction (@Kernel real_numeric 1%R 1%R 1%R [])
                [1200]%R [1]%R [1]%R)
    ≠ returned (Extinction (@Kernel real_numeric 2%R 1%R 1%R [])
                  [1200]%R [1]%R [1]%R).
Proof.
  split.
  - eexists _, _. split; [by apply Extinction_same_length|]. done.
  - rewrite !Extinction_same_length by done.
    cbn [returned zip_with]. unfold derived.
    cbn [V_dusty V_nodust EBV ndiv nlog real_numeric].
    intros [= Hln]. rewrite !Rdiv_1_r in Hln.
    apply ln_inv in Hln; lra.
Qed.

(** C7, amended: the tuple [Extinction] returns is a function of its three
    arguments and of the module-level [V_dusty], [V_nodust] and [EBV], and
    of nothing else in the notebook's state; the call leaves those three
    variables alone and adds the returned pair as one line to the figure,
    so that calling it again with the same arguments returns the same
    tuple. *)
Theorem Extinction_deterministic {N : Numeric} (k1 k2 : kernel N)
    (wav flux1 flux2 : list num) :
  V_dusty k1 = V_dusty k2 → V_nodust k1 = V_nodust k2 → EBV k1 = EBV k2 →
  returned (Extinction k1 wav flux1 flux2)
  = returned (Extinction k2 wav flux1 flux2)
  ∧ ∀ v k1',
      Extinction k1 wav flux1 flux2 = Ok (v, k1') →
      V_dusty k1' = V_dusty k1 ∧ V_nodust k1' = V_nodust k1
      ∧ EBV k1' = EBV k1 ∧ figure k1' = figure k1 ++ [v]
      ∧ returned (Extinction k1' wav flux1 flux2) = Ok v.
Proof.
  intros Hd Hn He. split; [by apply Extinction_returned_frame|].
  intros v k1' Hrun.
  rewrite (Extinction_outcome _ _ _ _ _ _ Hrun).
  repeat split.
  rewrite (Extinction_returned_frame (draw v k1) k1) by done.
  by rewrite Hrun.
Qed.

Lemma Extinction_deterministic_witness :
  returned (Extinction (@Kernel real_numeric 1%R 2%R 1%R [])
              [1200]%R [1]%R [2]%R)
  = returned (Extinction (@Kernel real_numeric 1%R 2%R 1%R [([7], [8])]%R)
                [1200]%R [1]%R [2]%R)
  ∧ ∀ v k1',
      Extinction (@Kernel real_numeric 1%R 2%R 1%R []) [1200]%R [1]%R [2]%R
      = Ok (v, k1') →
      V_dusty k1' = 1%R ∧ V_nodust k1' = 2%R
      ∧ EBV k1' = 1%R ∧ figure k1' = [] ++ [v]
      ∧ returned (Extinction k1' [1200]%R [1]%R [2]%R) = Ok v.
Proof.
  apply (Extinction_deterministic
           (@Kernel real_numeric 1%R 2%R 1%R [])
           (@Kernel real_numeric 1%R 2%R 1%R [([7], [8])]%R)
           [1200]%R [1]%R [2]%R); reflexivity.
Defined.

(** * Further properties of the notebook's cells *)

(** ** Slices for every integer bound *)

Lemma adjust_index_bounds (len i : Z) :
  (0 ≤ len)%Z → (0 ≤ adjust_index len i ≤ len)%Z.
Proof. intros Hlen. unfold adjust_index. destruct (Z.ltb_spec i 0); lia. Qed.

Lemma slice_to_adjust {A} (j : Z) (a : list A) :
  slice_to j a = take (Z.to_nat (adjust_index (Z.of_nat (length a)) j)) a.
Proof.
  unfold slice_to, py_slice. cbn [from_option].
  rewrite Z.sub_0_r. done.
Qed.

Lemma slice_from_adjust {A} (i : Z) (a : list A) :
  slice_from i a = drop (Z.to_nat (adjust_index (Z.of_nat (length a)) i)) a.
Proof.
  unfold slice_from, py_slice. cbn [from_option].
  pose proof (adjust_index_bounds (Z.of_nat (length a)) i) as Hb.
  apply take_ge. rewrite length_drop. lia.
Qed.

Lemma slice_from_neg {A} (i : Z) (a : list A) :
  (i < 0)%Z → slice_from i a = drop (length a - Z.to_nat (- i)) a.
Proof.
  intros Hi. rewrite slice_from_adjust. f_equal.
  unfold adjust_index. destruct (Z.ltb_spec i 0); lia.
Qed.

Lemma slice_to_zero {A} (a : list A) : slice_to 0 a = [].
Proof. by rewrite slice_to_take. Qed.

(** X1: for every integer [i], also a negative one or one beyond the end,
    [a[:i]] followed by [a[i:]] is [a]: what [a[s_crop:]] removes from the
    front is [a[:s_crop]], and what [a[:l_crop]] keeps is completed by
    [a[l_crop:]]. *)
Theorem slice_to_from_complement {A} (i : Z) (a : list A) :
  slice_to i a ++ slice_from i a = a.
Proof. rewrite slice_to_adjust, slice_from_adjust. apply take_drop. Qed.

(** X2: the sign conventions of the two excision parameters.  [s_crop = 0]
    keeps an array whole, but [l_crop = 0] empties it; [a[s_crop:]] drops
    [s_crop] samples from the front for [s_crop >= 0] and [a[:l_crop]] drops
    [-l_crop] samples from the back only for [l_crop < 0]; a negative
    [s_crop] keeps the last [-s_crop] samples and a non-negative [l_crop]
    the first [l_crop]. *)
Theorem excision_parameter_conventions {A} (a : list A) :
  slice_from 0 a = a
  ∧ slice_to 0 a = []
  ∧ (∀ s, (0 ≤ s)%Z →
       slice_from s a = drop (Z.to_nat s) a
       ∧ length (slice_from s a) = length a - Z.to_nat s)
  ∧ (∀ l, (l < 0)%Z →
       slice_to l a = take (length a - Z.to_nat (- l)) a
       ∧ length (slice_to l a) = length a - Z.to_nat (- l))
  ∧ (∀ s, (s < 0)%Z →
       slice_from s a = drop (length a - Z.to_nat (- s)) a
       ∧ length (slice_from s a) = length a `min` Z.to_nat (- s))
  ∧ (∀ l, (0 ≤ l)%Z →
       slice_to l a = take (Z.to_nat l) a
       ∧ length (slice_to l a) = length a `min` Z.to_nat l).
Proof.
  split; [by rewrite slice_from_drop|].
  split; [apply slice_to_zero|].
  split; [|split; [|split]].
  - intros s Hs. rewrite slice_from_drop by done.
    split; [done|]. by rewrite length_drop.
  - intros l Hl. rewrite slice_to_neg by done.
    split; [done|]. rewrite length_take. lia.
  - intros s Hs. rewrite slice_from_neg by done.
    split; [done|]. rewrite length_drop. lia.
  - intros l Hl. rewrite slice_to_take by done.
    split; [done|]. rewrite length_take. lia.
Qed.

(** ** Running the cells again, and cropping twice *)

(** X3: running the alignment cell a second time changes nothing. *)
Theorem align_idempotent {T} (dusty nodust : spectrum T) :
  align dusty (align dusty nodust).2 = align dusty nodust.
Proof.
  destruct (align dusty nodust) as [d n'] eqn:Halign.
  pose proof (align_snd_wav dusty nodust) as Hw.
  pose proof (align_snd_flux dusty nodust) as Hf.
  rewrite Halign in Hw, Hf. cbn [snd] in *.
  assert (d = dusty) as -> by (by injection Halign).
  unfold align. f_equal. destruct n' as [w f]. cbn [wav flux] in *.
  rewrite !slice_to_take by lia. rewrite !Nat2Z.id. subst w f.
  by rewrite !take_take, !Nat.min_id.
Qed.



(** ** When [Extinction] raises *)

Section ExtinctionShapes.
Context {N : Numeric}.
Implicit Types (k : kernel N) (wav : list num).

Lemma np_divide_cases (flux1 flux2 : list num) :
  (length flux1 = length flux2
   ∧ np_divide flux1 flux2 = Ok (zip_with ndiv flux1 flux2))
  ∨ (length flux1 ≠ length flux2
     ∧ ∃ x, flux1 = [x] ∧ np_divide flux1 flux2 = Ok (ndiv x <$> flux2))
  ∨ (length flux1 ≠ length flux2 ∧ length flux1 ≠ 1
     ∧ ∃ y, flux2 = [y]
            ∧ np_divide flux1 flux2 = Ok ((λ x, ndiv x y) <$> flux1))
  ∨ (length flux1 ≠ length flux2 ∧ length flux1 ≠ 1 ∧ length flux2 ≠ 1
     ∧ np_divide flux1 flux2 = Raise ValueError).
Proof.
  unfold np_divide. case_decide as Hlen; [by left|]. right.
  destruct flux1 as [|x [|x' flux1]], flux2 as [|y [|y' flux2]];
    try done; cbn [length] in *;
    first [ left; split; [done|]; by eexists
          | right; left; split; [done|]; split; [done|]; by eexists
          | right; right; repeat split; done ].
Qed.

Lemma Extinction_after_divide k wav (flux1 flux2 flux_rat : list num) :
  np_divide flux1 flux2 = Ok flux_rat →
  (returns (Extinction k wav flux1 flux2) ↔ length wav = length flux_rat)
  ∧ (length wav ≠ length flux_rat →
       Extinction k wav flux1 flux2 = Raise ValueError)
  ∧ (length wav = length flux_rat →
       returned (Extinction k wav flux1 flux2)
       = Ok (ndiv (of_int (10 ^ 4)) <$> wav,
             (λ x, ndiv x (EBV k))
               <$> (nlog <$> (ndiv (ndiv (V_dusty k) (V_nodust k))
                                <$> flux_rat)))).
Proof.
  intros Hdiv. unfold Extinction, returns. rewrite Hdiv.
  cbn [mbind result_bind]. unfold plt_plot.
  rewrite !length_fmap. case_decide as Hlen.
  - split; [|split]; [|done|done]. split; [done|]. intros _. by eexists.
  - split; [|split]; [|done|done]. split; [|done]. by intros [v Hv].
Qed.

Lemma Extinction_divide_raises k wav (flux1 flux2 : list num) :
  np_divide flux1 flux2 = Raise ValueError →
  Extinction k wav flux1 flux2 = Raise ValueError.
Proof. intros Hdiv. unfold Extinction. by rewrite Hdiv. Qed.

Lemma Extinction_shapes k wav (flux1 flux2 : list num) :
  let fits :=
    (length flux1 = length flux2 ∧ length wav = length flux1)
    ∨ (length flux1 = 1 ∧ length wav = length flux2)
    ∨ (length flux2 = 1 ∧ length wav = length flux1) in
  (returns (Extinction k wav flux1 flux2) ↔ fits)
  ∧ (¬ fits → Extinction k wav flux1 flux2 = Raise ValueError).
Proof.
  intros fits. subst fits.
  destruct (np_divide_cases flux1 flux2)
    as [[Hlen Hdiv]|[(Hlen & x & -> & Hdiv)|[(Hlen & H1 & y & -> & Hdiv)
       |(Hlen & H1 & H2 & Hdiv)]]].
  - destruct (Extinction_after_divide k wav _ _ _ Hdiv) as (Hiff & Hr & _).
    rewrite length_zip_with in Hiff, Hr.
    split; [rewrite Hiff; lia|]. intros Hn; apply Hr; lia.
  - destruct (Extinction_after_divide k wav _ _ _ Hdiv) as (Hiff & Hr & _).
    rewrite length_fmap in Hiff, Hr. cbn [length] in *.
    split; [rewrite Hiff; lia|]. intros Hn; apply Hr; lia.
  - destruct (Extinction_after_divide k wav _ _ _ Hdiv) as (Hiff & Hr & _).
    rewrite length_fmap in Hiff, Hr. cbn [length] in *.
    split; [rewrite Hiff; lia|]. intros Hn; apply Hr; lia.
  - pose proof (Extinction_divide_raises k wav _ _ Hdiv) as Hraise.
    split; [|done].
    unfold returns. rewrite Hraise. split; [by intros [v Hv]|lia].
Qed.

Lemma Extinction_one_sample_reference k wav (flux1 : list num) (y : num) :
  length wav = length flux1 →
  returned (Extinction k wav flux1 [y])
  = Ok (ndiv (of_int (10 ^ 4)) <$> wav, (λ a, derived k a y) <$> flux1).
Proof.
  intros Hwav.
  assert (np_divide flux1 [y] = Ok ((λ x, ndiv x y) <$> flux1)) as Hdiv.
  { unfold np_divide. case_decide as Hlen.
    - by destruct flux1 as [|a [|]].
    - by destruct flux1 as [|a [|]]. }
  destruct (Extinction_after_divide k wav _ _ _ Hdiv) as (_ & _ & Hv).
  rewrite Hv by (by rewrite length_fmap). f_equal. f_equal.
  by rewrite <-!list_fmap_compose.
Qed.

(** X5: [Extinction] returns exactly when the two flux arrays have one
    length, or one of them has a single sample (which NumPy broadcasts
    against the other), and the wavelength array has the length of the
    longer one; in every other case it raises [ValueError].  A one-sample
    reference is not rejected: it is divided into every target sample. *)
Theorem Extinction_returns_iff k wav (flux1 flux2 : list num) :
  let fits :=
    (length flux1 = length flux2 ∧ length wav = length flux1)
    ∨ (length flux1 = 1 ∧ length wav = length flux2)
    ∨ (length flux2 = 1 ∧ length wav = length flux1) in
  (returns (Extinction k wav flux1 flux2) ↔ fits)
  ∧ (¬ fits → Extinction k wav flux1 flux2 = Raise ValueError)
  ∧ (∀ y, flux2 = [y] → length wav = length flux1 →
       returned (Extinction k wav flux1 flux2)
       = Ok (ndiv (of_int (10 ^ 4)) <$> wav,
             (λ a, derived k a y) <$> flux1)).
Proof.
  intros fits.
  destruct (Extinction_shapes k wav flux1 flux2) as [Hiff Hraise].
  split; [exact Hiff|]. split; [exact Hraise|].
  intros y -> Hwav. by apply Extinction_one_sample_reference.
Qed.

(** X6: what the alignment cell achieves for the call that follows it.  For
    a dusty spectrum whose two arrays have one length,
    [Extinction(wav_dusty, flux_dusty, flux_nodust)] on the aligned data
    returns exactly when the nodust fluxes were at least as many as the
    dusty ones, or were a single sample; a shorter nodust spectrum still
    ends in [ValueError].  When it was at least as long, the curve is
    computed against its first samples. *)
Theorem Extinction_after_align k (dusty nodust : spectrum num) :
  length (wav dusty) = length (flux dusty) →
  let nodust' := (align dusty nodust).2 in
  (returns (Extinction k (wav dusty) (flux dusty) (flux nodust'))
   ↔ length (flux dusty) ≤ length (flux nodust)
     ∨ length (flux nodust) = 1)
  ∧ (length (flux nodust) < length (flux dusty) →
     length (flux nodust) ≠ 1 →
     Extinction k (wav dusty) (flux dusty) (flux nodust') = Raise ValueError)
  ∧ (length (flux dusty) ≤ length (flux nodust) →
     returned (Extinction k (wav dusty) (flux dusty) (flux nodust'))
     = Ok (ndiv (of_int (10 ^ 4)) <$> wav dusty,
           zip_with (derived k) (flux dusty)
             (take (length (flux dusty)) (flux nodust)))).
Proof.
  intros Hd nodust'. subst nodust'.
  rewrite align_snd_flux.
  destruct (Extinction_shapes k (wav dusty) (flux dusty)
              (take (length (flux dusty)) (flux nodust)))
    as (Hiff & Hraise).
  rewrite length_take in Hiff, Hraise.
  split; [rewrite Hiff; lia|]. split.
  - intros Hlt Hne. apply Hraise. lia.
  - intros Hle. rewrite Extinction_same_length; [done| |done].
    rewrite length_take. lia.
Qed.
End ExtinctionShapes.

Lemma Extinction_after_align_witness :
  let dusty : spectrum (@num real_numeric) :=
    Spectrum [1200; 1300]%R [1; 2]%R in
  let nodust : spectrum (@num real_numeric) :=
    Spectrum [1200; 1300; 1400]%R [2; 2; 2]%R in
  let k := @Kernel real_numeric 1%R 2%R 1%R [] in
  (returns (Extinction k (wav dusty) (flux dusty)
              (flux (align dusty nodust).2))
   ↔ length (flux dusty) ≤ length (flux nodust)
     ∨ length (flux nodust) = 1)
  ∧ (length (flux nodust) < length (flux dusty) →
     length (flux nodust) ≠ 1 →
     Extinction k (wav dusty) (flux dusty) (flux (align dusty nodust).2)
     = Raise ValueError)
  ∧ (length (flux dusty) ≤ length (flux nodust) →
     returned (Extinction k (wav dusty) (flux dusty)
                 (flux (align dusty nodust).2))
     = Ok (ndiv (of_int (10 ^ 4)) <$> wav dusty,
           zip_with (derived k) (flux dusty)
             (take (length (flux dusty)) (flux nodust)))).
Proof.
  intros dusty nodust k.
  apply (Extinction_after_align k dusty nodust). reflexivity.
Defined.

(** ** Excising before or after the computation *)

Lemma py_slice_fmap {A B} (f : A → B) (start stop : option Z) (a : list A) :
  py_slice start stop (f <$> a) = f <$> py_slice start stop a.
Proof.
  unfold py_slice. by rewrite length_fmap, fmap_take, fmap_drop.
Qed.

Lemma py_slice_zip_with {A B C} (f : A → B → C) (start stop : option Z)
    (a : list A) (b : list B) :
  length a = length b →
  py_slice start stop (zip_with f a b)
  = zip_with f (py_slice start stop a) (py_slice start stop b).
Proof.
  intros Hlen. unfold py_slice.
  rewrite length_zip_with, <-Hlen, Nat.min_id.
  by rewrite zip_with_drop, zip_with_take.
Qed.

Section ExtinctionSlices.
Context {N : Numeric}.
Implicit Types (k : kernel N) (wav : list num).

(** X7: slicing commutes with [Extinction].  On arrays of one length,
    calling it on [wav[i:j]], [flux1[i:j]], [flux2[i:j]] returns
    [inv_wav[i:j]] and [ext[i:j]] of the call on the whole arrays, for all
    bounds [i], [j], present or not: excising the edges changes no value
    that is kept. *)
Theorem Extinction_py_slice k (start stop : option Z) wav
    (flux1 flux2 : list num) :
  length flux1 = length flux2 → length wav = length flux1 →
  ∃ inv_wav ext,
    returned (Extinction k wav flux1 flux2) = Ok (inv_wav, ext)
    ∧ returned (Extinction k (py_slice start stop wav)
                  (py_slice start stop flux1) (py_slice start stop flux2))
      = Ok (py_slice start stop inv_wav, py_slice start stop ext).
Proof.
  intros Hflux Hwav. eexists _, _.
  rewrite !Extinction_same_length;
    [|by apply length_py_slice_eq|by apply length_py_slice_eq|done|done].
  cbn [returned]. split; [done|].
  by rewrite py_slice_fmap, py_slice_zip_with.
Qed.

Lemma extinction_cell_same_length k
    (sw_dusty sw_nodust lw_dusty lw_nodust : spectrum num) :
  length (flux sw_dusty) = length (flux sw_nodust) →
  length (wav sw_dusty) = length (flux sw_dusty) →
  length (flux lw_dusty) = length (flux lw_nodust) →
  length (wav lw_dusty) = length (flux lw_dusty) →
  let s := (ndiv (of_int (10 ^ 4)) <$> wav sw_dusty,
            zip_with (derived k) (flux sw_dusty) (flux sw_nodust)) in
  let l := (ndiv (of_int (10 ^ 4)) <$> wav lw_dusty,
            zip_with (derived k) (flux lw_dusty) (flux lw_nodust)) in
  extinction_cell k sw_dusty sw_nodust lw_dusty lw_nodust
  = Ok (s, l, draw l (draw s (plt_figure k))).
Proof.
  intros Hs1 Hs2 Hl1 Hl2 s l. unfold extinction_cell.
  rewrite Extinction_same_length by done. cbn [mbind result_bind].
  rewrite Extinction_same_length by done. done.
Qed.

(** X8: the two plotting cells on spectra whose arrays match in length.
    Both calls return; afterwards the current figure holds exactly the two
    returned curves, short wavelength first, whatever was drawn before, and
    [V_dusty], [V_nodust] and [EBV] are as they were.  The curves of the
    excision cell are those of the first cell, sliced [[s_crop:]] and
    [[:l_crop]]. *)
Theorem excision_cell_slices k (s_crop l_crop : Z)
    (sw_dusty sw_nodust lw_dusty lw_nodust : spectrum num) :
  length (flux sw_dusty) = length (flux sw_nodust) →
  length (wav sw_dusty) = length (flux sw_dusty) →
  length (flux lw_dusty) = length (flux lw_nodust) →
  length (wav lw_dusty) = length (flux lw_dusty) →
  ∃ s l k2 k2',
    extinction_cell k sw_dusty sw_nodust lw_dusty lw_nodust = Ok (s, l, k2)
    ∧ figure k2 = [s; l]
    ∧ excision_cell k s_crop l_crop sw_dusty sw_nodust lw_dusty lw_nodust
      = Ok ((slice_from s_crop s.1, slice_from s_crop s.2),
            (slice_to l_crop l.1, slice_to l_crop l.2), k2')
    ∧ figure k2' = [(slice_from s_crop s.1, slice_from s_crop s.2);
                    (slice_to l_crop l.1, slice_to l_crop l.2)]
    ∧ (V_dusty k2', V_nodust k2', EBV k2') = (V_dusty k, V_nodust k, EBV k)
    ∧ (V_dusty k2, V_nodust k2, EBV k2) = (V_dusty k, V_nodust k, EBV k).
Proof.
  intros Hs1 Hs2 Hl1 Hl2. eexists _, _, _, _.
  split; [by apply extinction_cell_same_length|]. split; [done|].
  unfold excision_cell, slice_from, slice_to.
  rewrite Extinction_same_length by (by apply length_py_slice_eq).
  cbn [mbind result_bind].
  rewrite Extinction_same_length by (by apply length_py_slice_eq).
  cbn [mbind result_bind mret result_ret fst snd].
  by rewrite !py_slice_fmap, !py_slice_zip_with by done.
Qed.
End ExtinctionSlices.

Lemma Extinction_py_slice_witness :
  ∃ inv_wav ext,
    returned (Extinction (@Kernel real_numeric 1%R 2%R 1%R [])
                [1200; 1300; 1400]%R [1; 2; 4]%R [2; 2; 2]%R)
    = Ok (inv_wav, ext)
    ∧ returned (Extinction (@Kernel real_numeric 1%R 2%R 1%R [])
                  (py_slice (Some 1%Z) (Some (-1)%Z) [1200; 1300; 1400]%R)
                  (py_slice (Some 1%Z) (Some (-1)%Z) [1; 2; 4]%R)
                  (py_slice (Some 1%Z) (Some (-1)%Z) [2; 2; 2]%R))
      = Ok (py_slice (Some 1%Z) (Some (-1)%Z) inv_wav,
            py_slice (Some 1%Z) (Some (-1)%Z) ext).
Proof.
  apply (Extinction_py_slice (@Kernel real_numeric 1%R 2%R 1%R [])
           (Some 1%Z) (Some (-1)%Z)
           [1200; 1300; 1400]%R [1; 2; 4]%R [2; 2; 2]%R); reflexivity.
Defined.

Lemma excision_cell_slices_witness :
  let sw_dusty : spectrum (@num real_numeric) :=
    Spectrum [1200; 1300; 1400]%R [1; 2; 4]%R in
  let sw_nodust : spectrum (@num real_numeric) :=
    Spectrum [1200; 1300; 1400]%R [2; 2; 2]%R in
  let lw_dusty : spectrum (@num real_numeric) :=
    Spectrum [2000; 2100]%R [3; 5]%R in
  let lw_nodust : spectrum (@num real_numeric) :=
    Spectrum [2000; 2100]%R [4; 4]%R in
  let k := @Kernel real_numeric 1%R 2%R 1%R [([7], [8])]%R in
  ∃ s l k2 k2',
    extinction_cell k sw_dusty sw_nodust lw_dusty lw_nodust = Ok (s, l, k2)
    ∧ figure k2 = [s; l]
    ∧ excision_cell k 1 (-1) sw_dusty sw_nodust lw_dusty lw_nodust
      = Ok ((slice_from 1 s.1, slice_from 1 s.2),
            (slice_to (-1) l.1, slice_to (-1) l.2), k2')
    ∧ figure k2' = [(slice_from 1 s.1, slice_from 1 s.2);
                    (slice_to (-1) l.1, slice_to (-1) l.2)]
    ∧ (V_dusty k2', V_nodust k2', EBV k2') = (V_dusty k, V_nodust k, EBV k)
    ∧ (V_dusty k2, V_nodust k2, EBV k2) = (V_dusty k, V_nodust k, EBV k).
Proof.
  intros sw_dusty sw_nodust lw_dusty lw_nodust k.
  apply (excision_cell_slices k 1 (-1) sw_dusty sw_nodust lw_dusty lw_nodust);
    reflexivity.
Defined.

(** ** The curve in exact arithmetic *)

Section RealCurve.
Implicit Types (k : kernel real_numeric) (wav : list R).
Open Scope R_scope.

Lemma ln_quotient (x y : R) : 0 < x → 0 < y → ln (x / y) = ln x - ln y.
Proof.
  intros Hx Hy. unfold Rdiv.
  rewrite ln_mult by (try apply Rinv_0_lt_compat; done).
  rewrite ln_Rinv by done. lra.
Qed.

Lemma derived_log_difference k (a b : R) :
  0 < V_dusty k → 0 < V_nodust k → 0 < a → 0 < b →
  derived k a b = (ln (V_dusty k / V_nodust k) - ln (a / b)) / EBV k.
Proof.
  intros Hd Hn Ha Hb. unfold derived. cbn [ndiv nlog real_numeric].
  rewrite ln_quotient by (by apply Rdiv_lt_0_compat). done.
Qed.

Lemma derived_zero_iff k (a b : R) :
  0 < V_dusty k → 0 < V_nodust k → 0 < a → 0 < b → EBV k ≠ 0 →
  derived k a b = 0 ↔ a / b = V_dusty k / V_nodust k.
Proof.
  intros Hd Hn Ha Hb He. rewrite derived_log_difference by done.
  pose proof (Rdiv_lt_0_compat _ _ Hd Hn) as Hv.
  pose proof (Rdiv_lt_0_compat _ _ Ha Hb) as Hf.
  split.
  - intros Hz. symmetry. apply ln_inv; [done..|].
    apply (Rmult_eq_compat_r (EBV k)) in Hz.
    unfold Rdiv in Hz at 1. rewrite Rmult_assoc, Rinv_l in Hz by done. lra.
  - intros ->. unfold Rdiv at 1. rewrite Rminus_diag. lra.
Qed.

Lemma derived_decreasing k (a b a' b' : R) :
  0 < V_dusty k → 0 < V_nodust k → 0 < a → 0 < b → 0 < a' → 0 < b' →
  0 < EBV k → a / b < a' / b' → derived k a' b' < derived k a b.
Proof.
  intros Hd Hn Ha Hb Ha' Hb' He Hlt. rewrite !derived_log_difference by done.
  pose proof (ln_increasing _ _ (Rdiv_lt_0_compat _ _ Ha Hb) Hlt) as Hln.
  apply Rmult_lt_compat_r; [by apply Rinv_0_lt_compat|lra].
Qed.

(** X9: for positive fluxes and magnitudes the derived value is the
    difference of logarithms of the notebook's formula,
    [(log(V_ratio) - log(flux_ratio)) / E(B-V)], and for a non-zero [EBV] it
    vanishes exactly at the samples whose flux ratio equals the V ratio. *)
Theorem Extinction_log_difference k wav (flux1 flux2 : list R) :
  length flux1 = length flux2 → length wav = length flux1 →
  0 < V_dusty k → 0 < V_nodust k →
  ∃ inv_wav ext k',
    Extinction k wav flux1 flux2 = Ok ((inv_wav, ext), k')
    ∧ ∀ i a b,
        flux1 !! i = Some a → flux2 !! i = Some b → 0 < a → 0 < b →
        ext !! i
        = Some ((ln (V_dusty k / V_nodust k) - ln (a / b)) / EBV k)
        ∧ (EBV k ≠ 0 →
           ext !! i = Some 0 ↔ a / b = V_dusty k / V_nodust k).
Proof.
  intros Hflux Hwav Hd Hn.
  destruct (Extinction_samples k wav flux1 flux2 Hflux Hwav)
    as (inv_wav & ext & k' & Hrun & Hext).
  exists inv_wav, ext, k'. split; [done|].
  intros i a b Hi1 Hi2 Ha Hb. specialize (Hext i a b Hi1 Hi2).
  split.
  - etrans; [exact Hext|]. f_equal. by apply derived_log_difference.
  - intros He. rewrite <-(derived_zero_iff k a b) by done.
    split; intros Hz.
    + assert (Some (derived k a b) = Some 0) as [= Hz'];
        [by etrans; [symmetry; exact Hext|exact Hz]|exact Hz'].
    + etrans; [exact Hext|]. by f_equal.
Qed.

(** X10: with a positive [EBV] the derived value decreases as the flux
    ratio dusty/nodust grows: of two samples, the one where the dusty star
    is relatively dimmer has the larger extinction. *)
Theorem Extinction_decreasing_in_flux_ratio k wav (flux1 flux2 : list R) :
  length flux1 = length flux2 → length wav = length flux1 →
  0 < V_dusty k → 0 < V_nodust k → 0 < EBV k →
  ∃ inv_wav ext k',
    Extinction k wav flux1 flux2 = Ok ((inv_wav, ext), k')
    ∧ ∀ i j a b a' b',
        flux1 !! i = Some a → flux2 !! i = Some b →
        flux1 !! j = Some a' → flux2 !! j = Some b' →
        0 < a → 0 < b → 0 < a' → 0 < b' → a / b < a' / b' →
        ∃ x y, ext !! i = Some x ∧ ext !! j = Some y ∧ y < x.
Proof.
  intros Hflux Hwav Hd Hn He.
  destruct (Extinction_samples k wav flux1 flux2 Hflux Hwav)
    as (inv_wav & ext & k' & Hrun & Hext).
  exists inv_wav, ext, k'. split; [done|].
  intros i j a b a' b' Hi1 Hi2 Hj1 Hj2 Ha Hb Ha' Hb' Hlt.
  exists (derived k a b), (derived k a' b').
  split; [by apply Hext|]. split; [by apply Hext|].
  by apply derived_decreasing.
Qed.
End RealCurve.

Lemma Extinction_log_difference_witness :
  ∃ inv_wav ext k',
    Extinction (@Kernel real_numeric 1%R 2%R 1%R [])
      [1200; 1300]%R [1; 2]%R [2; 2]%R = Ok ((inv_wav, ext), k')
    ∧ ∀ i a b,
        [1; 2]%R !! i = Some a → [2; 2]%R !! i = Some b →
        (0 < a)%R → (0 < b)%R →
        ext !! i = Some ((ln (1 / 2) - ln (a / b)) / 1)%R
        ∧ (1%R ≠ 0%R → ext !! i = Some 0%R ↔ (a / b = 1 / 2)%R).
Proof.
  apply (Extinction_log_difference (@Kernel real_numeric 1%R 2%R 1%R [])
           [1200; 1300]%R [1; 2]%R [2; 2]%R);
    first [reflexivity | simpl; lra].
Defined.

Lemma Extinction_decreasing_in_flux_ratio_witness :
  ∃ inv_wav ext k',
    Extinction (@Kernel real_numeric 1%R 2%R 1%R [])
      [1200; 1300]%R [1; 2]%R [2; 2]%R = Ok ((inv_wav, ext), k')
    ∧ ∀ i j a b a' b',
        [1; 2]%R !! i = Some a → [2; 2]%R !! i = Some b →
        [1; 2]%R !! j = Some a' → [2; 2]%R !! j = Some b' →
        (0 < a)%R → (0 < b)%R → (0 < a')%R → (0 < b')%R →
        (a / b < a' / b')%R →
        ∃ x y, ext !! i = Some x ∧ ext !! j = Some y ∧ (y < x)%R.
Proof.
  apply (Extinction_decreasing_in_flux_ratio
           (@Kernel real_numeric 1%R 2%R 1%R [])
           [1200; 1300]%R [1; 2]%R [2; 2]%R);
    first [reflexivity | simpl; lra].
Defined.

(** ** Exchanging the stars, and the wavelength axis *)

Section RealSymmetry.
Implicit Types (wav : list R).
Open Scope R_scope.

Lemma color_excess_swap (B_d V_d B_n V_n : R) :
  color_excess Rminus B_n V_n B_d V_d
  = - color_excess Rminus B_d V_d B_n V_n.
Proof. unfold color_excess. lra. Qed.

Lemma derived_swap (B_d V_d B_n V_n a b : R) lines lines' :
  0 < V_d → 0 < V_n → 0 < a → 0 < b →
  derived (photometry_real B_n V_n B_d V_d lines) b a
  = derived (photometry_real B_d V_d B_n V_n lines') a b.
Proof.
  intros Hd Hn Ha Hb. unfold derived, photometry_real.
  cbn [V_dusty V_nodust EBV ndiv nlog real_numeric].
  rewrite color_excess_swap.
  replace (V_n / V_d / (b / a)) with (/ (V_d / V_n / (a / b)))
    by (field; repeat split; lra).
  rewrite ln_Rinv by (by repeat apply Rdiv_lt_0_compat).
  rewrite Rdiv_opp_r, Rdiv_opp_l. lra.
Qed.

Lemma zip_with_swap_positive (g h : R → R → R) (flux1 flux2 : list R) :
  (∀ a b, 0 < a → 0 < b → g b a = h a b) →
  Forall (λ x, 0 < x) flux1 → Forall (λ x, 0 < x) flux2 →
  zip_with g flux2 flux1 = zip_with h flux1 flux2.
Proof.
  intros Hgh H1. revert flux2.
  induction H1 as [|a flux1 Ha _ IH]; intros flux2 H2.
  - by destruct flux2.
  - destruct H2 as [|b flux2 Hb H2]; [done|].
    cbn [zip_with]. f_equal; [by apply Hgh|by apply IH].
Qed.

(** X11: in exact arithmetic the curve does not depend on which star is
    called dusty.  With positive magnitudes and fluxes, exchanging the two
    stars throughout (their fluxes, their V magnitudes, and their colours in
    [EBV]) returns the same two arrays. *)
Theorem Extinction_swap_stars (B_d V_d B_n V_n : R)
    (lines : list (list R * list R)) wav (flux1 flux2 : list R) :
  length flux1 = length flux2 → length wav = length flux1 →
  0 < V_d → 0 < V_n →
  Forall (λ x, 0 < x) flux1 → Forall (λ x, 0 < x) flux2 →
  returned (Extinction (photometry_real B_n V_n B_d V_d lines)
              wav flux2 flux1)
  = returned (Extinction (photometry_real B_d V_d B_n V_n lines)
                wav flux1 flux2).
Proof.
  intros Hflux Hwav Hd Hn H1 H2.
  rewrite (Extinction_same_length (photometry_real B_d V_d B_n V_n lines)
             wav flux1 flux2 Hflux Hwav).
  rewrite (Extinction_same_length (photometry_real B_n V_n B_d V_d lines)
             wav flux2 flux1 (eq_sym Hflux) (eq_trans Hwav Hflux)).
  cbn [returned]. f_equal. f_equal.
  apply zip_with_swap_positive; [|done..].
  intros a b Ha Hb. by apply derived_swap.
Qed.

Lemma inverse_wavelength_involutive wav :
  Forall (λ w, w ≠ 0) wav →
  Rdiv (IZR (10 ^ 4)) <$> (Rdiv (IZR (10 ^ 4)) <$> wav) = wav.
Proof.
  induction 1 as [|w wav Hw _ IH]; [done|].
  cbn [fmap list_fmap]. f_equal; [|exact IH].
  change (10 ^ 4)%Z with 10000%Z. by field.
Qed.

Lemma inverse_wavelength_reverses wav :
  Forall (λ w, 0 < w) wav → non_decreasing Rle wav →
  non_decreasing Rge (Rdiv (IZR (10 ^ 4)) <$> wav).
Proof.
  intros Hpos Hup i x y Hx Hy.
  rewrite list_lookup_fmap in Hx, Hy.
  destruct (wav !! i) as [w|] eqn:Hw; [|done].
  destruct (wav !! S i) as [w'|] eqn:Hw'; [|done].
  injection Hx as <-. injection Hy as <-.
  pose proof (Forall_lookup_1 _ _ _ _ Hpos Hw) as Hw0.
  pose proof (Forall_lookup_1 _ _ _ _ Hpos Hw') as Hw0'. cbn beta in *.
  specialize (Hup i w w' Hw Hw').
  change (10 ^ 4)%Z with 10000%Z. apply Rle_ge.
  unfold Rdiv. apply Rmult_le_compat_l; [lra|].
  by apply Rinv_le_contravar.
Qed.

(** X12: the wavelength transform [10**4/wav] is its own inverse, and it
    reverses the order.  Feeding the returned [inv_wav] back in as [wav]
    returns the original wavelengths (none of them zero) with the same
    derived values; and for positive, non-decreasing wavelengths the
    returned axis is non-increasing. *)
Theorem Extinction_inverse_wavelength (k : kernel real_numeric) wav
    (flux1 flux2 : list R) :
  length flux1 = length flux2 → length wav = length flux1 →
  ∃ inv_wav ext,
    returned (Extinction k wav flux1 flux2) = Ok (inv_wav, ext)
    ∧ (Forall (λ w, w ≠ 0) wav →
       returned (Extinction k inv_wav flux1 flux2) = Ok (wav, ext))
    ∧ (Forall (λ w, 0 < w) wav → non_decreasing Rle wav →
       non_decreasing Rge inv_wav).
Proof.
  intros Hflux Hwav. eexists _, _.
  rewrite Extinction_same_length by done. cbn [returned].
  split; [done|]. split.
  - intros Hnz. rewrite Extinction_same_length;
      [|done|by rewrite length_fmap].
    cbn [returned]. f_equal. f_equal.
    by apply inverse_wavelength_involutive.
  - apply inverse_wavelength_reverses.
Qed.
End RealSymmetry.

Lemma Extinction_swap_stars_witness :
  returned (Extinction (photometry_real 11 10 14 12 [])
              [1200; 1300]%R [2; 2]%R [1; 3]%R)
  = returned (Extinction (photometry_real 14 12 11 10 [])
                [1200; 1300]%R [1; 3]%R [2; 2]%R).
Proof.
  apply (Extinction_swap_stars 14 12 11 10 [] [1200; 1300]%R
           [1; 3]%R [2; 2]%R);
    first [reflexivity | lra | repeat constructor; lra].
Defined.

Lemma Extinction_inverse_wavelength_witness :
  ∃ inv_wav ext,
    returned (Extinction (@Kernel real_numeric 1%R 2%R 1%R [])
                [1200; 1300]%R [1; 2]%R [2; 2]%R) = Ok (inv_wav, ext)
    ∧ (Forall (λ w, w ≠ 0%R) [1200; 1300]%R →
       returned (Extinction (@Kernel real_numeric 1%R 2%R 1%R [])
                   inv_wav [1; 2]%R [2; 2]%R)
       = Ok ([1200; 1300]%R, ext))
    ∧ (Forall (λ w, (0 < w)%R) [1200; 1300]%R →
       non_decreasing Rle [1200; 1300]%R →
       non_decreasing Rge inv_wav).
Proof.
  apply (Extinction_inverse_wavelength (@Kernel real_numeric 1%R 2%R 1%R [])
           [1200; 1300]%R [1; 2]%R [2; 2]%R); reflexivity.
Defined.

(** ** Equal colours and invalid samples in floating point *)

Section FloatEdges.
Variables (prec emax : Z) (libm_log : positive → Z → spec_float).
Local Abbreviation F := (ieee_numeric prec emax libm_log).

Lemma SFsub_diag (x : spec_float) :
  np_isfinite x = true → SFsub prec emax x x = S754_zero false.
Proof.
  destruct x as [[]| | |s m e]; try done. intros _.
  unfold SFsub. by rewrite Z.sub_diag.
Qed.

Lemma SFdiv_nonfinite_l (x y : spec_float) :
  np_isfinite x = false → np_isfinite (SFdiv prec emax x y) = false.
Proof. by destruct x, y. Qed.

Lemma SFdiv_nan_l (y : spec_float) : SFdiv prec emax S754_nan y = S754_nan.
Proof. done. Qed.

Lemma SFdiv_nan_r (x : spec_float) : SFdiv prec emax x S754_nan = S754_nan.
Proof. by destruct x. Qed.

Lemma binary_round_aux_sign (s : bool) (m e : Z) (l : location) :
  np_isnan (binary_round_aux prec emax s m e l) = true
  ∨ np_signbit (binary_round_aux prec emax s m e l) = s.
Proof.
  unfold binary_round_aux.
  destruct (shr_fexp prec emax m e l) as [mrs' e'].
  destruct (shr_fexp prec emax _ e' loc_Exact) as [mrs'' e''].
  destruct (shr_m mrs''); [by right| |by left].
  destruct (e'' <=? emax - prec)%Z; by right.
Qed.

Lemma SFdiv_sign (x y : spec_float) :
  np_isnan (SFdiv prec emax x y) = true
  ∨ np_signbit (SFdiv prec emax x y) = xorb (np_signbit x) (np_signbit y).
Proof.
  destruct x as [sx|sx| |sx mx ex], y as [sy|sy| |sy my ey];
    try (by left); try (by right).
  unfold SFdiv.
  destruct (SFdiv_core_binary prec emax (Z.pos mx) ex (Z.pos my) ey)
    as [[mz ez] lz].
  apply binary_round_aux_sign.
Qed.

Lemma np_log_of_negative (z : spec_float) :
  np_isnan z = true ∨ np_signbit z = true →
  np_isfinite (np_log prec emax libm_log z) = false.
Proof. destruct z as [[]|[]| |[] m e]; intros [?|?]; done. Qed.

Lemma derived_zero_excess (k : kernel F) (a b : spec_float) :
  is_zero (EBV k) = true → np_isfinite (derived k a b) = false.
Proof.
  unfold derived. cbn [ndiv nlog ieee_numeric].
  destruct (EBV k) as [s| | |]; try done. intros _.
  rewrite SFdiv_zero_r. by destruct (_ || _).
Qed.

Lemma derived_nan_sample (k : kernel F) (a b : spec_float) :
  np_isnan a = true ∨ np_isnan b = true → derived k a b = S754_nan.
Proof.
  intros Hnan. unfold derived. cbn [ndiv nlog ieee_numeric].
  assert (SFdiv prec emax a b = S754_nan) as ->.
  { destruct Hnan as [Ha|Hb]; [by destruct a|destruct b; try done].
    apply SFdiv_nan_r. }
  by rewrite SFdiv_nan_r.
Qed.

Lemma derived_opposite_signs (k : kernel F) (a b : spec_float) :
  np_signbit a ≠ np_signbit b →
  np_signbit (V_dusty k) = np_signbit (V_nodust k) →
  np_isfinite (derived k a b) = false.
Proof.
  intros Hab HV. unfold derived. cbn [ndiv nlog ieee_numeric].
  apply SFdiv_nonfinite_l, np_log_of_negative.
  pose proof (SFdiv_sign (V_dusty k) (V_nodust k)) as HVrat.
  pose proof (SFdiv_sign a b) as Hrat.
  rewrite HV, xorb_nilpotent in HVrat.
  assert (xorb (np_signbit a) (np_signbit b) = true) as Hx
    by (by destruct (np_signbit a), (np_signbit b)).
  rewrite Hx in Hrat.
  set (V_rat := SFdiv prec emax (V_dusty k) (V_nodust k)) in *.
  set (flux_rat := SFdiv prec emax a b) in *.
  destruct (SFdiv_sign V_rat flux_rat) as [Hz|Hz]; [by left|].
  destruct Hrat as [Hrat|Hrat].
  { left. destruct flux_rat; try done. by rewrite SFdiv_nan_r. }
  destruct HVrat as [HVrat|HVrat].
  { left. by destruct V_rat. }
  right. by rewrite Hz, HVrat, Hrat.
Qed.

(** X13: two stars of one colour.  When the B-V colours computed by the
    photometry cell are the same finite float, [EBV] is [+0]; [Extinction]
    still returns on arrays of one length, and every derived value is NaN
    or an infinity. *)
Theorem Extinction_equal_colours
    (B_dusty V_d B_nodust V_n : spec_float)
    (lines : list (list spec_float * list spec_float))
    (wav flux1 flux2 : list spec_float) :
  length flux1 = length flux2 → length wav = length flux1 →
  SFsub prec emax B_dusty V_d = SFsub prec emax B_nodust V_n →
  np_isfinite (SFsub prec emax B_dusty V_d) = true →
  let k := photometry_ieee prec emax libm_log B_dusty V_d B_nodust V_n lines in
  EBV k = S754_zero false
  ∧ ∃ inv_wav ext k',
      Extinction k wav flux1 flux2 = Ok ((inv_wav, ext), k')
      ∧ length ext = length flux1
      ∧ ∀ i d, ext !! i = Some d → np_isfinite d = false.
Proof.
  intros Hflux Hwav Hcol Hfin k.
  assert (EBV k = S754_zero false) as Hzero.
  { subst k. unfold photometry_ieee, color_excess. cbn [EBV].
    rewrite <-Hcol. by apply SFsub_diag. }
  split; [done|]. eexists _, _, _.
  split; [by apply Extinction_same_length|].
  split; [by apply length_zip_with_l_eq|].
  intros i d (a & b & -> & _ & _)%lookup_zip_with_Some.
  apply derived_zero_excess. by rewrite Hzero.
Qed.

(** X14: samples that are no valid fluxes do not make [Extinction] raise.
    A NaN in either flux array gives NaN at that index; a target and a
    reference flux of opposite signs (with V magnitudes of one sign) give
    NaN or an infinity there, since the logarithm is taken of a negative
    ratio. *)
Theorem Extinction_invalid_samples (k : kernel F)
    (wav flux1 flux2 : list spec_float) :
  length flux1 = length flux2 → length wav = length flux1 →
  ∃ inv_wav ext k',
    Extinction k wav flux1 flux2 = Ok ((inv_wav, ext), k')
    ∧ ∀ i a b,
        flux1 !! i = Some a → flux2 !! i = Some b →
        (np_isnan a = true ∨ np_isnan b = true → ext !! i = Some S754_nan)
        ∧ (np_signbit a ≠ np_signbit b →
           np_signbit (V_dusty k) = np_signbit (V_nodust k) →
           ∃ d, ext !! i = Some d ∧ np_isfinite d = false).
Proof.
  intros Hflux Hwav.
  destruct (Extinction_samples k wav flux1 flux2 Hflux Hwav)
    as (inv_wav & ext & k' & Hrun & Hext).
  exists inv_wav, ext, k'. split; [done|].
  intros i a b Ha Hb. specialize (Hext i a b Ha Hb). split.
  - intros Hnan. etrans; [exact Hext|]. f_equal.
    by apply derived_nan_sample.
  - intros Hab HV. exists (derived k a b). split; [exact Hext|].
    by apply derived_opposite_signs.
Qed.
End FloatEdges.

Lemma Extinction_equal_colours_witness :
  let k := photometry_ieee 53 1024 (λ _ _, S754_nan)
             (f64 13) (f64 12) (f64 11) (f64 10) [] in
  EBV k = S754_zero false
  ∧ ∃ inv_wav ext k',
      Extinction k [f64 1200; f64 1300] [f64 1; f64 2] [f64 2; f64 2]
      = Ok ((inv_wav, ext), k')
      ∧ length ext = length [f64 1; f64 2]
      ∧ ∀ i d, ext !! i = Some d → np_isfinite d = false.
Proof.
  apply (Extinction_equal_colours 53 1024 (λ _ _, S754_nan)
           (f64 13) (f64 12) (f64 11) (f64 10) []
           [f64 1200; f64 1300] [f64 1; f64 2] [f64 2; f64 2]);
    first [reflexivity | by vm_compute].
Defined.

Lemma Extinction_invalid_samples_witness :
  ∃ inv_wav ext k',
    Extinction (kernel64 (λ _ _, S754_nan) (f64 12) (f64 13) (f64 1))
      [f64 1200; f64 1300] [f64 (-1); S754_nan] [f64 2; f64 2]
    = Ok ((inv_wav, ext), k')
    ∧ ∀ i a b,
        [f64 (-1); S754_nan] !! i = Some a → [f64 2; f64 2] !! i = Some b →
        (np_isnan a = true ∨ np_isnan b = true → ext !! i = Some S754_nan)
        ∧ (np_signbit a ≠ np_signbit b →
           np_signbit (f64 12) = np_signbit (f64 13) →
           ∃ d, ext !! i = Some d ∧ np_isfinite d = false).
Proof.
  apply (Extinction_invalid_samples 53 1024 (λ _ _, S754_nan)
           (kernel64 (λ _ _, S754_nan) (f64 12) (f64 13) (f64 1))
           [f64 1200; f64 1300] [f64 (-1); S754_nan] [f64 2; f64 2]);
    reflexivity.
Defined.

(** ** The spectrum plot *)

Section SpectrumPlot.
Context {N : Numeric}.
Variable nlog10 : num → num.
Implicit Types (k : kernel N) (wav flux : list num).

Lemma Plot_cases k wav flux :
  (length wav = length flux
   ∧ Plot nlog10 k wav flux
     = Ok (draw (ndiv (of_int (10 ^ 4)) <$> wav, nlog10 <$> flux) k))
  ∨ (length wav ≠ length flux
     ∧ Plot nlog10 k wav flux = Raise ValueError).
Proof.
  unfold Plot, plt_plot. rewrite !length_fmap.
  case_decide; [by left|by right].
Qed.

(** X15: the spectrum plot asks nothing of the two stars together.  The
    cell returns exactly when each of the four spectra has as many
    wavelengths as fluxes, and raises [ValueError] otherwise; the lengths of
    different spectra need not agree, so it needs no alignment, unlike
    [Extinction].  On return the figure holds the four curves in the order
    of the calls, each drawn at [10**4/wav], the abscissa that [Extinction]
    returns for the same wavelengths. *)
Theorem spectra_cell_returns_iff k
    (lw_dusty sw_dusty lw_nodust sw_nodust : spectrum num) :
  let matched (sp : spectrum num) := length (wav sp) = length (flux sp) in
  let curve (sp : spectrum num) :=
    (ndiv (of_int (10 ^ 4)) <$> wav sp, nlog10 <$> flux sp) in
  let fits :=
    matched lw_dusty ∧ matched sw_dusty
    ∧ matched lw_nodust ∧ matched sw_nodust in
  (returns (spectra_cell nlog10 k lw_dusty sw_dusty lw_nodust sw_nodust)
   ↔ fits)
  ∧ (¬ fits →
     spectra_cell nlog10 k lw_dusty sw_dusty lw_nodust sw_nodust
     = Raise ValueError)
  ∧ (∀ k', spectra_cell nlog10 k lw_dusty sw_dusty lw_nodust sw_nodust
           = Ok k' →
     figure k' = [curve lw_dusty; curve sw_dusty;
                  curve lw_nodust; curve sw_nodust]
     ∧ (∀ flux2, length flux2 = length (flux lw_dusty) →
        ∃ ext, returned (Extinction k (wav lw_dusty) (flux lw_dusty) flux2)
               = Ok ((curve lw_dusty).1, ext))).
Proof.
  intros matched curve fits. subst matched curve fits. cbn beta.
  unfold spectra_cell, returns.
  destruct (Plot_cases (plt_figure k) (wav lw_dusty) (flux lw_dusty))
    as [[H1 ->]|[H1 ->]]; cbn [mbind result_bind];
    [|split; [split; [by intros [? ?]|tauto]|by split]].
  destruct (Plot_cases (draw (ndiv (of_int (10 ^ 4)) <$> wav lw_dusty,
                             nlog10 <$> flux lw_dusty) (plt_figure k))
              (wav sw_dusty) (flux sw_dusty))
    as [[H2 ->]|[H2 ->]]; cbn [mbind result_bind];
    [|split; [split; [by intros [? ?]|tauto]|by split]].
  match goal with |- context [Plot nlog10 ?k0 (wav lw_nodust) _] =>
    destruct (Plot_cases k0 (wav lw_nodust) (flux lw_nodust))
      as [[H3 ->]|[H3 ->]] end; cbn [mbind result_bind];
    [|split; [split; [by intros [? ?]|tauto]|by split]].
  match goal with |- context [Plot nlog10 ?k0 (wav sw_nodust) _] =>
    destruct (Plot_cases k0 (wav sw_nodust) (flux sw_nodust))
      as [[H4 ->]|[H4 ->]] end;
    [|split; [split; [by intros [? ?]|tauto]|by split]].
  split; [split; [done|by eexists]|]. split; [tauto|].
  intros k' [= <-]. split; [done|].
  intros flux2 Hlen. eexists.
  rewrite Extinction_same_length by congruence. done.
Qed.
End SpectrumPlot.

(** ** Removing nothing from the end *)

(** X16: [l_crop = 0] does not mean that no sample is removed from the
    end.  For every long-wavelength input the excision cell then calls
    [Extinction] on empty arrays: nothing is raised and the long-wavelength
    curve is empty, while the short-wavelength curve is computed as
    usual. *)
Theorem excision_cell_l_crop_zero {N : Numeric} (k : kernel N) (s_crop : Z)
    (sw_dusty sw_nodust lw_dusty lw_nodust : spectrum num) :
  length (flux sw_dusty) = length (flux sw_nodust) →
  length (wav sw_dusty) = length (flux sw_dusty) →
  ∃ s k',
    excision_cell k s_crop 0 sw_dusty sw_nodust lw_dusty lw_nodust
    = Ok (s, ([], []), k')
    ∧ s = (ndiv (of_int (10 ^ 4)) <$> slice_from s_crop (wav sw_dusty),
           zip_with (derived k) (slice_from s_crop (flux sw_dusty))
             (slice_from s_crop (flux sw_nodust)))
    ∧ figure k' = [s; ([], [])].
Proof.
  intros Hs1 Hs2. eexists _, _. unfold excision_cell.
  rewrite Extinction_same_length
    by (unfold slice_from; by apply length_py_slice_eq).
  cbn [mbind result_bind].
  rewrite !slice_to_zero.
  rewrite Extinction_same_length by done. done.
Qed.

Lemma excision_cell_l_crop_zero_witness :
  let sw_dusty : spectrum (@num real_numeric) :=
    Spectrum [1200; 1300; 1400]%R [1; 2; 4]%R in
  let sw_nodust : spectrum (@num real_numeric) :=
    Spectrum [1200; 1300; 1400]%R [2; 2; 2]%R in
  let lw_dusty : spectrum (@num real_numeric) :=
    Spectrum [2000; 2100]%R [3; 5]%R in
  let lw_nodust : spectrum (@num real_numeric) :=
    Spectrum [2000; 2100]%R [4; 4]%R in
  let k := @Kernel real_numeric 1%R 2%R 1%R [] in
  ∃ s k',
    excision_cell k 1 0 sw_dusty sw_nodust lw_dusty lw_nodust
    = Ok (s, ([], []), k')
    ∧ s = (ndiv (of_int (10 ^ 4)) <$> slice_from 1 (wav sw_dusty),
           zip_with (derived k) (slice_from 1 (flux sw_dusty))
             (slice_from 1 (flux sw_nodust)))
    ∧ figure k' = [s; ([], [])].
Proof.
  intros sw_dusty sw_nodust lw_dusty lw_nodust k.
  apply (excision_cell_l_crop_zero k 1 sw_dusty sw_nodust lw_dusty lw_nodust);
    reflexivity.
Defined.
